(** * Intel 8080 instruction core ([src/core.c]): shallow embedding and properties

    The C program keeps one mutable [State8080] and executes one instruction
    per call of [emulate_op].  The embedding passes the state explicitly.
    Unsigned C integers are modelled as [Z] with the wrap-around written out
    at every assignment to a narrower object; memory is a list of bytes
    indexed by address; an access outside the allocated block, which C leaves
    undefined, and the [exit(1)] of the two fault handlers are separate
    outcomes of a step. *)

From Stdlib Require Import ZArith Lia Bool List.
From stdpp Require Import base list.
Import ListNotations.
Local Open Scope Z_scope.

(** ** Fixed-width unsigned integers *)

(** Conversion to [uint8_t], [uint16_t], [uint32_t] and to a one-bit
    bit-field. *)
Definition u8 (v : Z) : Z := v mod 256.
Definition u16 (v : Z) : Z := v mod 65536.
Definition u32 (v : Z) : Z := v mod 4294967296.
Definition bit1 (v : Z) : Z := v mod 2.

(** The value of a C comparison, the truth of a C scalar, and C's [!]. *)
Definition of_bool (t : bool) : Z := if t then 1 else 0.
Definition truth (v : Z) : bool := negb (v =? 0).
Definition cnot (v : Z) : Z := of_bool (v =? 0).

(** ** Processor state *)

Record ConditionCodes : Type := mkCC {
  z : Z;
  s : Z;
  p : Z;
  cy : Z;
  ac : Z;
  pad : Z
}.

Record State8080 : Type := mkState {
  a : Z;
  b : Z;
  c : Z;
  d : Z;
  e : Z;
  h : Z;
  l : Z;
  sp : Z;
  pc : Z;
  memory : list Z;
  cc : ConditionCodes;
  int_enable : Z
}.

(** Assignments to the fields; each one converts to the field's type. *)
Definition set_a (v : Z) (st : State8080) : State8080 :=
  mkState (u8 v) (b st) (c st) (d st) (e st) (h st) (l st) (sp st) (pc st)
          (memory st) (cc st) (int_enable st).
Definition set_b (v : Z) (st : State8080) : State8080 :=
  mkState (a st) (u8 v) (c st) (d st) (e st) (h st) (l st) (sp st) (pc st)
          (memory st) (cc st) (int_enable st).
Definition set_c (v : Z) (st : State8080) : State8080 :=
  mkState (a st) (b st) (u8 v) (d st) (e st) (h st) (l st) (sp st) (pc st)
          (memory st) (cc st) (int_enable st).
Definition set_d (v : Z) (st : State8080) : State8080 :=
  mkState (a st) (b st) (c st) (u8 v) (e st) (h st) (l st) (sp st) (pc st)
          (memory st) (cc st) (int_enable st).
Definition set_e (v : Z) (st : State8080) : State8080 :=
  mkState (a st) (b st) (c st) (d st) (u8 v) (h st) (l st) (sp st) (pc st)
          (memory st) (cc st) (int_enable st).
Definition set_h (v : Z) (st : State8080) : State8080 :=
  mkState (a st) (b st) (c st) (d st) (e st) (u8 v) (l st) (sp st) (pc st)
          (memory st) (cc st) (int_enable st).
Definition set_l (v : Z) (st : State8080) : State8080 :=
  mkState (a st) (b st) (c st) (d st) (e st) (h st) (u8 v) (sp st) (pc st)
          (memory st) (cc st) (int_enable st).
Definition set_sp (v : Z) (st : State8080) : State8080 :=
  mkState (a st) (b st) (c st) (d st) (e st) (h st) (l st) (u16 v) (pc st)
          (memory st) (cc st) (int_enable st).
Definition set_pc (v : Z) (st : State8080) : State8080 :=
  mkState (a st) (b st) (c st) (d st) (e st) (h st) (l st) (sp st) (u16 v)
          (memory st) (cc st) (int_enable st).
Definition set_memory (m : list Z) (st : State8080) : State8080 :=
  mkState (a st) (b st) (c st) (d st) (e st) (h st) (l st) (sp st) (pc st)
          m (cc st) (int_enable st).
Definition set_cc (f : ConditionCodes) (st : State8080) : State8080 :=
  mkState (a st) (b st) (c st) (d st) (e st) (h st) (l st) (sp st) (pc st)
          (memory st) f (int_enable st).

Definition set_z (v : Z) (st : State8080) : State8080 :=
  let f := cc st in set_cc (mkCC (bit1 v) (s f) (p f) (cy f) (ac f) (pad f)) st.
Definition set_s (v : Z) (st : State8080) : State8080 :=
  let f := cc st in set_cc (mkCC (z f) (bit1 v) (p f) (cy f) (ac f) (pad f)) st.
Definition set_p (v : Z) (st : State8080) : State8080 :=
  let f := cc st in set_cc (mkCC (z f) (s f) (bit1 v) (cy f) (ac f) (pad f)) st.
Definition set_cy (v : Z) (st : State8080) : State8080 :=
  let f := cc st in set_cc (mkCC (z f) (s f) (p f) (bit1 v) (ac f) (pad f)) st.
Definition set_ac (v : Z) (st : State8080) : State8080 :=
  let f := cc st in set_cc (mkCC (z f) (s f) (p f) (cy f) (bit1 v) (pad f)) st.

(** Every object holds a value of its C type. *)
Definition byte (v : Z) : Prop := 0 <= v < 256.
Definition flag (v : Z) : Prop := v = 0 \/ v = 1.

Definition is_byte (v : Z) : bool := (0 <=? v) && (v <? 256).
Definition is_flag (v : Z) : bool := (v =? 0) || (v =? 1).
Definition is_word (v : Z) : bool := (0 <=? v) && (v <? 65536).

Definition wf_cc (f : ConditionCodes) : bool :=
  is_flag (z f) && is_flag (s f) && is_flag (p f) && is_flag (cy f)
  && is_flag (ac f) && ((0 <=? pad f) && (pad f <? 8)).

Definition wf_state (st : State8080) : bool :=
  is_byte (a st) && is_byte (b st) && is_byte (c st) && is_byte (d st)
  && is_byte (e st) && is_byte (h st) && is_byte (l st)
  && is_word (sp st) && is_word (pc st)
  && forallb is_byte (memory st)
  && wf_cc (cc st) && is_byte (int_enable st).

(** ** Flags *)

Definition zero (answer : Z) : Z := of_bool (Z.land answer 0xff =? 0).

Definition sign (answer : Z) : Z := of_bool (Z.land answer 0x80 =? 0).

Definition sign32 (answer : Z) : Z := of_bool (Z.land answer 0x8000 =? 0).

(** The [while (ans8bit)] loop of [parity]: every round flips [parity] and
    clears the lowest set bit of [ans8bit].  [fuel] bounds the rounds; the
    pair returned is the loop's two variables when it stops. *)
Fixpoint parity_loop (fuel : nat) (parity ans8bit : Z) : Z * Z :=
  match fuel with
  | O => (parity, ans8bit)
  | S fuel' =>
      if truth ans8bit
      then parity_loop fuel' (u8 (cnot parity)) (u8 (Z.land ans8bit (ans8bit - 1)))
      else (parity, ans8bit)
  end.

(** A byte has at most eight bits to clear. *)
Definition parity (answer : Z) : Z :=
  fst (parity_loop 8 0 (u8 (Z.land answer 0xff))).

Definition carry (answer : Z) : Z := of_bool (answer >? 0xff).

Definition carry32 (answer : Z) : Z := of_bool (answer >? 0xffff).

Definition auxcarry (answer : Z) : Z :=
  let last8 := u8 (Z.land answer 0xff) in
  let cleaned := u8 (Z.land last8 0x1f) in
  of_bool (cleaned >? 0xff).

Definition auxcarry32 (answer : Z) : Z := auxcarry (u16 (Z.land answer 0xffff)).

Definition SET_Z_FLAG : Z := Z.shiftl 1 7.
Definition SET_S_FLAG : Z := Z.shiftl 1 6.
Definition SET_P_FLAG : Z := Z.shiftl 1 5.
Definition SET_CY_FLAG : Z := Z.shiftl 1 4.
Definition SET_AC_FLAG : Z := Z.shiftl 1 3.
Definition SET_ALL_FLAGS : Z :=
  Z.lor (Z.lor (Z.lor (Z.lor SET_Z_FLAG SET_S_FLAG) SET_P_FLAG) SET_CY_FLAG) SET_AC_FLAG.

(** [if (cleaned & FLAG) state->cc.x = f(answer);] *)
Definition when_set (cleaned mask : Z) (upd : State8080 -> State8080)
    (st : State8080) : State8080 :=
  if truth (Z.land cleaned mask) then upd st else st.

Definition set_flags (state : State8080) (answer flagstoset : Z) : State8080 :=
  let cleaned := u8 (Z.land flagstoset 0xf8) in
  let state := when_set cleaned SET_Z_FLAG (set_z (zero answer)) state in
  let state := when_set cleaned SET_S_FLAG (set_s (sign answer)) state in
  let state := when_set cleaned SET_P_FLAG (set_p (parity answer)) state in
  let state := when_set cleaned SET_CY_FLAG (set_cy (carry answer)) state in
  when_set cleaned SET_AC_FLAG (set_ac (auxcarry answer)) state.

Definition set_flags32 (state : State8080) (answer flagstoset : Z) : State8080 :=
  let cleaned := u8 (Z.land flagstoset 0xf8) in
  let left := u16 (Z.shiftr answer 16) in
  let right := u16 (Z.land answer 0xffff) in
  let state :=
    when_set cleaned SET_Z_FLAG
      (set_z (of_bool (Z.lor (zero left) (zero right) =? 0))) state in
  let state := when_set cleaned SET_S_FLAG (set_s (sign32 answer)) state in
  let state :=
    when_set cleaned SET_P_FLAG
      (set_p (of_bool (Z.lxor (parity left) (parity right) =? 0))) state in
  let state := when_set cleaned SET_CY_FLAG (set_cy (carry32 answer)) state in
  when_set cleaned SET_AC_FLAG (set_ac (auxcarry32 answer)) state.

(** ** Outcomes of a step *)

(** The two handlers that end the process with [exit(1)]. *)
Inductive fault : Type :=
| Unimplemented
| Unused (opcode : Z).

(** A computation returns normally, ends the process in a fault handler (the
    state is the one the process held at that moment), or reads or writes
    outside [memory], which C leaves undefined. *)
Inductive outcome (T : Type) : Type :=
| Next (v : T)
| Exit (f : fault) (st : State8080)
| Undefined.
Arguments Next {T} v.
Arguments Exit {T} f st.
Arguments Undefined {T}.

Definition bind {T U : Type} (m : outcome T) (k : T -> outcome U) : outcome U :=
  match m with
  | Next v => k v
  | Exit f st => Exit f st
  | Undefined => Undefined
  end.

Notation "x <- m ;; k" := (bind m (fun x => k))
  (at level 20, m at level 99, k at level 200, only parsing).

(** ** Memory and pointers *)

Definition in_memory (state : State8080) (addr : Z) : Prop :=
  0 <= addr < Z.of_nat (length (memory state)).

(** [state->memory[addr]] as an rvalue. *)
Definition load (state : State8080) (addr : Z) : outcome Z :=
  if addr <? 0 then Undefined
  else match memory state !! Z.to_nat addr with
       | Some v => Next v
       | None => Undefined
       end.

(** [state->memory[addr] = v]. *)
Definition store (addr v : Z) (state : State8080) : outcome State8080 :=
  if addr <? 0 then Undefined
  else if addr <? Z.of_nat (length (memory state))
       then Next (set_memory (<[Z.to_nat addr := u8 v]> (memory state)) state)
       else Undefined.

(** The [uint8_t *] arguments of the helpers: the address of a register or
    of a memory cell. *)
Inductive ptr : Type :=
| reg_a | reg_b | reg_c | reg_d | reg_e | reg_h | reg_l
| cell (offset : Z).

Definition deref (state : State8080) (q : ptr) : outcome Z :=
  match q with
  | reg_a => Next (a state)
  | reg_b => Next (b state)
  | reg_c => Next (c state)
  | reg_d => Next (d state)
  | reg_e => Next (e state)
  | reg_h => Next (h state)
  | reg_l => Next (l state)
  | cell offset => load state offset
  end.

Definition assign (q : ptr) (v : Z) (state : State8080) : outcome State8080 :=
  match q with
  | reg_a => Next (set_a v state)
  | reg_b => Next (set_b v state)
  | reg_c => Next (set_c v state)
  | reg_d => Next (set_d v state)
  | reg_e => Next (set_e v state)
  | reg_h => Next (set_h v state)
  | reg_l => Next (set_l v state)
  | cell offset => store offset v state
  end.

(** ** Accumulator arithmetic and logic *)

Definition add_x (state : State8080) (x : Z) : State8080 :=
  let a16 := u16 (a state) in
  let answer := u16 (a16 + u16 x) in
  let state := set_flags state answer SET_ALL_FLAGS in
  set_a (Z.land answer 0xff) state.

Definition adc_x (state : State8080) (x : Z) : State8080 :=
  let a16 := u16 (a state) in
  let carry_in := u8 (cy (cc state)) in
  let answer := u16 (a16 + carry_in + x) in
  let state := set_flags state answer SET_ALL_FLAGS in
  set_a (Z.land answer 0xff) state.

Definition sub_x (state : State8080) (x : Z) : State8080 :=
  let a16 := u16 (a state) in
  let answer := u16 (a16 - u16 x) in
  let state := set_flags state answer SET_ALL_FLAGS in
  set_a (Z.land answer 0xff) state.

Definition sbb_x (state : State8080) (x : Z) : State8080 :=
  let a16 := u16 (a state) in
  let carry_in := u8 (cy (cc state)) in
  let answer := u16 (a16 - x - carry_in) in
  let state := set_flags state answer SET_ALL_FLAGS in
  set_a (Z.land answer 0xff) state.

Definition ana_x (state : State8080) (x : Z) : State8080 :=
  let answer := u16 (Z.land (u16 (a state)) x) in
  let state := set_flags state answer SET_ALL_FLAGS in
  set_a (Z.land answer 0xff) state.

Definition xra_x (state : State8080) (x : Z) : State8080 :=
  let answer := u16 (Z.lxor (u16 (a state)) x) in
  let state := set_flags state answer SET_ALL_FLAGS in
  set_a (Z.land answer 0xff) state.

Definition ora_x (state : State8080) (x : Z) : State8080 :=
  let answer := u16 (Z.lor (u16 (a state)) x) in
  let state := set_flags state answer SET_ALL_FLAGS in
  set_a (Z.land answer 0xff) state.

(** ** Register pairs *)

Definition get16bitval (left right : Z) : Z :=
  u16 (Z.lor (Z.shiftl left 8) right).

(** Returns the updated state together with the 32-bit sum. *)
Definition tworeg_add (left_ptr right_ptr : ptr) (val : Z) (state : State8080)
    : outcome (State8080 * Z) :=
  left <- deref state left_ptr ;;
  right <- deref state right_ptr ;;
  let summand := get16bitval left right in
  let result := u32 (summand + val) in
  state <- assign left_ptr (Z.shiftr result 8) state ;;
  state <- assign right_ptr (Z.land result 0xff) state ;;
  Next (state, result).

Definition inr_x (state : State8080) (q : ptr) : outcome State8080 :=
  v <- deref state q ;;
  let answer := u16 (u16 v + 1) in
  let flags :=
    u8 (Z.lor (Z.lor (Z.lor SET_Z_FLAG SET_S_FLAG) SET_P_FLAG) SET_AC_FLAG) in
  let state := set_flags state answer flags in
  assign q (Z.land answer 0xff) state.

Definition dcr_x (state : State8080) (q : ptr) : outcome State8080 :=
  v <- deref state q ;;
  let answer := u16 (u16 v - 1) in
  let flags :=
    u8 (Z.lor (Z.lor (Z.lor SET_Z_FLAG SET_S_FLAG) SET_P_FLAG) SET_AC_FLAG) in
  let state := set_flags state answer flags in
  assign q (Z.land answer 0xff) state.

Definition inx_xy (left_ptr right_ptr : ptr) (state : State8080)
    : outcome State8080 :=
  r <- tworeg_add left_ptr right_ptr (u16 1) state ;;
  Next (fst r).

Definition dcx_xy (left_ptr right_ptr : ptr) (state : State8080)
    : outcome State8080 :=
  r <- tworeg_add left_ptr right_ptr (u16 (-1)) state ;;
  Next (fst r).

Definition dad_xy (state : State8080) (x y : ptr) : outcome State8080 :=
  xv <- deref state x ;;
  yv <- deref state y ;;
  let val_to_add := get16bitval xv yv in
  r <- tworeg_add reg_h reg_l val_to_add state ;;
  Next (set_cy (of_bool (snd r >? 0xffff)) (fst r)).

Definition read_addr (state : State8080) (lptr rptr : ptr) : outcome Z :=
  lv <- deref state lptr ;;
  rv <- deref state rptr ;;
  Next (get16bitval lv rv).

Definition read_hl_addr (state : State8080) : outcome Z :=
  read_addr state reg_h reg_l.

Definition read_hl (state : State8080) : outcome Z :=
  offset <- read_hl_addr state ;;
  load state offset.

Definition set_hl (state : State8080) (val : Z) : outcome State8080 :=
  offset <- read_hl_addr state ;;
  store offset val state.

(** ** Fault handlers *)

Definition unimplemented_instr (state : State8080) : outcome State8080 :=
  Exit Unimplemented state.

Definition unused_opcode (state : State8080) : outcome State8080 :=
  opcode <- load state (pc state) ;;
  Exit (Unused opcode) state.

(** ** The dispatcher *)

(** The [switch] of [emulate_op].  [base] is the address the pointer
    [opcode] was set to on entry, so [opcode[k]] is [memory[base + k]]. *)
Definition exec (opcode base : Z) (state : State8080) : outcome State8080 :=
  match opcode with
  | 0x00 => Next state
  | 0x01 =>
      byte2 <- load state (base + 1) ;;
      let state := set_c byte2 state in
      byte3 <- load state (base + 2) ;;
      let state := set_b byte3 state in
      Next (set_pc (pc state + 2) state)
  | 0x02 =>
      offset <- read_addr state reg_b reg_c ;;
      store offset (a state) state
  | 0x03 => inx_xy reg_b reg_c state
  | 0x04 => inr_x state reg_b
  | 0x05 => dcr_x state reg_b
  | 0x06 =>
      byte2 <- load state (base + 1) ;;
      let state := set_b byte2 state in
      Next (set_pc (pc state + 1) state)
  | 0x07 =>
      let leftmost := u8 (Z.shiftr (a state) 7) in
      let state := set_cy leftmost state in
      Next (set_a (Z.lor (Z.shiftl (a state) 1) leftmost) state)
  | 0x08 => unused_opcode state
  | 0x09 => dad_xy state reg_b reg_c
  | 0x0a =>
      offset <- read_addr state reg_b reg_c ;;
      memval <- load state offset ;;
      Next (set_a memval state)
  | 0x0b => dcx_xy reg_b reg_c state
  | 0x0c => inr_x state reg_c
  | 0x0d => dcr_x state reg_c
  | 0x0e =>
      byte2 <- load state (base + 1) ;;
      let state := set_c byte2 state in
      Next (set_pc (pc state + 1) state)
  | 0x0f =>
      let rightmost := u8 (Z.land (a state) 1) in
      let state := set_cy rightmost state in
      Next (set_a (Z.lor (Z.shiftr (a state) 1) (Z.shiftl rightmost 7)) state)
  | 0x10 => unused_opcode state
  | 0x11 =>
      byte3 <- load state (base + 2) ;;
      let state := set_d byte3 state in
      byte2 <- load state (base + 1) ;;
      let state := set_e byte2 state in
      Next (set_pc (pc state + 2) state)
  | 0x12 =>
      offset <- read_addr state reg_d reg_e ;;
      store offset (a state) state
  | 0x13 => inx_xy reg_d reg_e state
  | 0x14 => inr_x state reg_d
  | 0x15 => dcr_x state reg_d
  | 0x16 =>
      byte2 <- load state (base + 1) ;;
      let state := set_d byte2 state in
      Next (set_pc (pc state + 1) state)
  | 0x17 =>
      let leftmost := u8 (Z.shiftr (a state) 7) in
      let prev_cy := u8 (cy (cc state)) in
      let state := set_cy leftmost state in
      Next (set_a (Z.lor (Z.shiftl (a state) 1) prev_cy) state)
  | 0x18 => unused_opcode state
  | 0x19 => dad_xy state reg_d reg_e
  | 0x1a =>
      offset <- read_addr state reg_d reg_e ;;
      memval <- load state offset ;;
      Next (set_a memval state)
  | 0x1b => dcx_xy reg_d reg_e state
  | 0x1c => inr_x state reg_e
  | 0x1d => dcr_x state reg_e
  | 0x1e =>
      byte2 <- load state (base + 1) ;;
      let state := set_e byte2 state in
      Next (set_pc (pc state + 1) state)
  | 0x1f =>
      let rightmost := u8 (Z.land (a state) 1) in
      let prev_cy := u8 (cy (cc state)) in
      let state := set_cy rightmost state in
      Next (set_a (Z.lor (Z.shiftr (a state) 1) (Z.shiftl prev_cy 7)) state)
  | 0x20 => unused_opcode state
  | 0x21 =>
      byte3 <- load state (base + 2) ;;
      let state := set_h byte3 state in
      byte2 <- load state (base + 1) ;;
      let state := set_l byte2 state in
      Next (set_pc (pc state + 2) state)
  | 0x22 =>
      byte2 <- load state (base + 1) ;;
      byte3 <- load state (base + 2) ;;
      let addr := get16bitval byte2 byte3 in
      state <- store addr (l state) state ;;
      state <- store (addr + 1) (h state) state ;;
      Next (set_pc (pc state + 2) state)
  | 0x23 => inx_xy reg_h reg_l state
  | 0x24 => inr_x state reg_h
  | 0x25 => dcr_x state reg_h
  | 0x26 =>
      byte2 <- load state (base + 1) ;;
      let state := set_h byte2 state in
      Next (set_pc (pc state + 1) state)
  | 0x27 =>
      let least4 := u8 (Z.land (a state) 0xf) in
      let state :=
        if (least4 >? 9) || truth (ac (cc state))
        then
          let answer := u16 (a state + 6) in
          let state := set_flags state answer SET_ALL_FLAGS in
          set_a (Z.land answer 0xff) state
        else state in
      let most4 := u8 (Z.shiftr (a state) 4) in
      let most4 :=
        if (most4 >? 9) || truth (cy (cc state)) then u8 (most4 + 6) else most4 in
      let answer := u16 (Z.lor (Z.shiftl most4 4) least4) in
      let state := set_flags state answer SET_ALL_FLAGS in
      Next (set_a (Z.land answer 0xff) state)
  | 0x28 => unused_opcode state
  | 0x29 => dad_xy state reg_h reg_l
  | 0x2a =>
      byte2 <- load state (base + 1) ;;
      byte3 <- load state (base + 2) ;;
      let addr := get16bitval byte2 byte3 in
      val <- load state addr ;;
      val2 <- load state (addr + 1) ;;
      let state := set_l val state in
      let state := set_h val2 state in
      Next (set_pc (pc state + 2) state)
  | 0x2b => dcx_xy reg_h reg_l state
  | 0x2c => inr_x state reg_l
  | 0x2d => dcr_x state reg_l
  | 0x2e =>
      byte2 <- load state (base + 1) ;;
      let state := set_l byte2 state in
      Next (set_pc (pc state + 1) state)
  | 0x2f => Next (set_a (Z.lnot (a state)) state)
  | 0x30 => unused_opcode state
  | 0x31 =>
      byte3 <- load state (base + 2) ;;
      byte2 <- load state (base + 1) ;;
      let state := set_sp (Z.lor (Z.shiftl byte3 8) byte2) state in
      Next (set_pc (pc state + 2) state)
  | 0x32 =>
      byte2 <- load state (base + 1) ;;
      byte3 <- load state (base + 2) ;;
      let addr := get16bitval byte2 byte3 in
      state <- store addr (a state) state ;;
      Next (set_pc (pc state + 2) state)
  | 0x33 => Next (set_sp (sp state + 1) state)
  | 0x34 =>
      offset <- read_hl_addr state ;;
      inr_x state (cell offset)
  | 0x35 =>
      offset <- read_hl_addr state ;;
      dcr_x state (cell offset)
  | 0x36 =>
      byte2 <- load state (base + 1) ;;
      offset <- read_hl_addr state ;;
      state <- store offset byte2 state ;;
      Next (set_pc (pc state + 1) state)
  | 0x37 => Next (set_cy 1 state)
  | 0x38 => unused_opcode state
  | 0x39 =>
      r <- tworeg_add reg_h reg_l (sp state) state ;;
      Next (set_cy (of_bool (snd r >? 0xffff)) (fst r))
  | 0x3a =>
      byte2 <- load state (base + 1) ;;
      byte3 <- load state (base + 2) ;;
      let addr := get16bitval byte2 byte3 in
      val <- load state addr ;;
      let state := set_a val state in
      Next (set_pc (pc state + 2) state)
  | 0x3b =>
      let curr_sp := sp state in
      Next (set_sp (curr_sp - 1) state)
  | 0x3c => inr_x state reg_a
  | 0x3d => dcr_x state reg_a
  | 0x3e =>
      byte2 <- load state (base + 1) ;;
      let state := set_a byte2 state in
      Next (set_pc (pc state + 1) state)
  | 0x3f => Next (set_cy (Z.lnot (cy (cc state))) state)
  | 0x40 => Next (set_b (b state) state)
  | 0x41 => Next (set_b (c state) state)
  | 0x42 => Next (set_b (d state) state)
  | 0x43 => Next (set_b (e state) state)
  | 0x44 => Next (set_b (h state) state)
  | 0x45 => Next (set_b (l state) state)
  | 0x46 => m <- read_hl state ;; Next (set_b m state)
  | 0x47 => Next (set_b (a state) state)
  | 0x48 => Next (set_c (b state) state)
  | 0x49 => Next (set_c (c state) state)
  | 0x4a => Next (set_c (d state) state)
  | 0x4b => Next (set_c (e state) state)
  | 0x4c => Next (set_c (h state) state)
  | 0x4d => Next (set_c (l state) state)
  | 0x4e => m <- read_hl state ;; Next (set_c m state)
  | 0x4f => Next (set_c (a state) state)
  | 0x50 => Next (set_d (b state) state)
  | 0x51 => Next (set_d (c state) state)
  | 0x52 => Next (set_d (d state) state)
  | 0x53 => Next (set_d (e state) state)
  | 0x54 => Next (set_d (h state) state)
  | 0x55 => Next (set_d (l state) state)
  | 0x56 => m <- read_hl state ;; Next (set_d m state)
  | 0x57 => Next (set_d (a state) state)
  | 0x58 => Next (set_e (b state) state)
  | 0x59 => Next (set_e (c state) state)
  | 0x5a => Next (set_e (d state) state)
  | 0x5b => Next (set_e (e state) state)
  | 0x5c => Next (set_e (h state) state)
  | 0x5d => Next (set_e (l state) state)
  | 0x5e => m <- read_hl state ;; Next (set_e m state)
  | 0x5f => Next (set_e (a state) state)
  | 0x60 => Next (set_h (b state) state)
  | 0x61 => Next (set_h (c state) state)
  | 0x62 => Next (set_h (d state) state)
  | 0x63 => Next (set_h (e state) state)
  | 0x64 => Next (set_h (h state) state)
  | 0x65 => Next (set_h (l state) state)
  | 0x66 => m <- read_hl state ;; Next (set_h m state)
  | 0x67 => Next (set_h (a state) state)
  | 0x68 => Next (set_l (b state) state)
  | 0x69 => Next (set_l (c state) state)
  | 0x6a => Next (set_l (d state) state)
  | 0x6b => Next (set_l (e state) state)
  | 0x6c => Next (set_l (h state) state)
  | 0x6d => Next (set_l (l state) state)
  | 0x6e => m <- read_hl state ;; Next (set_l m state)
  | 0x6f => Next (set_l (a state) state)
  | 0x70 => set_hl state (b state)
  | 0x71 => set_hl state (c state)
  | 0x72 => set_hl state (d state)
  | 0x73 => set_hl state (e state)
  | 0x74 => set_hl state (h state)
  | 0x75 => set_hl state (l state)
  | 0x76 => unimplemented_instr state
  | 0x77 => set_hl state (a state)
  | 0x78 => Next (set_a (b state) state)
  | 0x79 => Next (set_a (c state) state)
  | 0x7a => Next (set_a (d state) state)
  | 0x7b => Next (set_a (e state) state)
  | 0x7c => Next (set_a (h state) state)
  | 0x7d => Next (set_a (l state) state)
  | 0x7e => m <- read_hl state ;; Next (set_a m state)
  | 0x7f => Next (set_a (a state) state)
  | 0x80 => Next (add_x state (b state))
  | 0x81 => Next (add_x state (c state))
  | 0x82 => Next (add_x state (d state))
  | 0x83 => Next (add_x state (e state))
  | 0x84 => Next (add_x state (h state))
  | 0x85 => Next (add_x state (l state))
  | 0x86 => m <- read_hl state ;; Next (add_x state m)
  | 0x87 => Next (add_x state (a state))
  | 0x88 =>
      let b8 := u8 (b state) in
      Next (adc_x state b8)
  | 0x89 => Next (adc_x state (c state))
  | 0x8a => Next (adc_x state (d state))
  | 0x8b => Next (adc_x state (e state))
  | 0x8c => Next (adc_x state (h state))
  | 0x8d => Next (adc_x state (l state))
  | 0x8e =>
      (* no [break]: control falls through into [case 0x8f] *)
      m <- read_hl state ;;
      let state := adc_x state m in
      Next (adc_x state (a state))
  | 0x8f => Next (adc_x state (a state))
  | 0x90 => Next (sub_x state (b state))
  | 0x91 => Next (sub_x state (c state))
  | 0x92 => Next (sub_x state (d state))
  | 0x93 => Next (sub_x state (e state))
  | 0x94 => Next (sub_x state (h state))
  | 0x95 => Next (sub_x state (l state))
  | 0x96 => m <- read_hl state ;; Next (sub_x state m)
  | 0x97 => Next (sub_x state (a state))
  | 0x98 => Next (sbb_x state (b state))
  | 0x99 => Next (sbb_x state (c state))
  | 0x9a => Next (sbb_x state (d state))
  | 0x9b => Next (sbb_x state (e state))
  | 0x9c => Next (sbb_x state (h state))
  | 0x9d => Next (sbb_x state (l state))
  | 0x9e => m <- read_hl state ;; Next (sbb_x state m)
  | 0x9f => Next (sbb_x state (a state))
  | 0xa0 => Next (ana_x state (b state))
  | 0xa1 => Next (ana_x state (c state))
  | 0xa2 => Next (ana_x state (d state))
  | 0xa3 => Next (ana_x state (e state))
  | 0xa4 => Next (ana_x state (h state))
  | 0xa5 => Next (ana_x state (l state))
  | 0xa6 => m <- read_hl state ;; Next (ana_x state m)
  | 0xa7 => Next (ana_x state (a state))
  | 0xa8 => Next (xra_x state (b state))
  | 0xa9 => Next (xra_x state (c state))
  | 0xaa => Next (xra_x state (d state))
  | 0xab => Next (xra_x state (e state))
  | 0xac => Next (xra_x state (h state))
  | 0xad => Next (xra_x state (l state))
  | 0xae => m <- read_hl state ;; Next (xra_x state m)
  | 0xaf => Next (xra_x state (a state))
  | 0xb0 => Next (ora_x state (b state))
  | 0xb1 => Next (ora_x state (c state))
  | 0xb2 => Next (ora_x state (d state))
  | 0xb3 => Next (ora_x state (e state))
  | 0xb4 => Next (ora_x state (h state))
  | 0xb5 => Next (ora_x state (l state))
  | 0xb6 => m <- read_hl state ;; Next (ora_x state m)
  | 0xb7 => Next (ora_x state (a state))
  | 0xb8 | 0xb9 | 0xba | 0xbb | 0xbc | 0xbd | 0xbe | 0xbf => unimplemented_instr state
  | 0xc0 | 0xc1 => unimplemented_instr state
  | 0xc2 =>
      if z (cc state) =? 0
      then
        byte3 <- load state (base + 2) ;;
        byte2 <- load state (base + 1) ;;
        Next (set_pc (Z.lor (Z.shiftl byte3 8) byte2) state)
      else Next (set_pc (pc state + 2) state)
  | 0xc3 =>
      byte3 <- load state (base + 2) ;;
      byte2 <- load state (base + 1) ;;
      Next (set_pc (Z.lor (Z.shiftl byte3 8) byte2) state)
  | 0xc4 | 0xc5 => unimplemented_instr state
  | 0xc6 =>
      byte2 <- load state (base + 1) ;;
      let answer := u16 (u16 (a state) + u16 byte2) in
      let state := set_flags state answer SET_ALL_FLAGS in
      Next (set_pc (pc state + 1) state)
  | 0xc7 | 0xc8 | 0xc9 | 0xca | 0xcb | 0xcc | 0xcd => unimplemented_instr state
  | 0xce =>
      byte2 <- load state (base + 1) ;;
      let data := u8 byte2 in
      let a16 := u16 (a state) in
      let answer := u16 (a16 + data + cy (cc state)) in
      let state := set_flags state answer SET_ALL_FLAGS in
      let state := set_a (Z.land answer 0xff) state in
      Next (set_pc (pc state + 1) state)
  | 0xcf | 0xd0 | 0xd1 | 0xd2 | 0xd3 | 0xd4 | 0xd5 => unimplemented_instr state
  | 0xd6 =>
      byte2 <- load state (base + 1) ;;
      let data := u8 byte2 in
      let answer := u16 (u16 (a state) - u16 data) in
      let state := set_flags state answer SET_ALL_FLAGS in
      let state := set_a (Z.land answer 0xff) state in
      Next (set_pc (pc state + 1) state)
  | 0xd7 | 0xd8 | 0xd9 | 0xda | 0xdb | 0xdc | 0xdd | 0xde | 0xdf
  | 0xe0 | 0xe1 | 0xe2 | 0xe3 | 0xe4 | 0xe5 => unimplemented_instr state
  | 0xe6 =>
      byte2 <- load state (base + 1) ;;
      let answer := u16 (Z.land (u16 (a state)) byte2) in
      let state := set_flags state answer SET_ALL_FLAGS in
      let state := set_a (Z.land answer 0xff) state in
      Next (set_pc (pc state + 1) state)
  | 0xe7 | 0xe8 | 0xe9 | 0xea | 0xeb | 0xec | 0xed | 0xee | 0xef
  | 0xf0 | 0xf1 | 0xf2 | 0xf3 | 0xf4 | 0xf5 => unimplemented_instr state
  | 0xf6 =>
      byte2 <- load state (base + 1) ;;
      let answer := u16 (Z.lor (u16 (a state)) byte2) in
      let state := set_flags state answer SET_ALL_FLAGS in
      let state := set_a (Z.land answer 0xff) state in
      Next (set_pc (pc state + 1) state)
  | 0xf7 | 0xf8 | 0xf9 | 0xfa | 0xfb | 0xfc | 0xfd | 0xfe | 0xff =>
      unimplemented_instr state
  | _ => Next state  (* no [case] label matches: the [switch] does nothing *)
  end.

(** [emulate_op]: fetch the opcode at [pc], run the [switch], then
    [state->pc += 1]. *)
Definition emulate_op (state : State8080) : outcome State8080 :=
  let base := pc state in
  opcode <- load state base ;;
  state <- exec opcode base state ;;
  Next (set_pc (pc state + 1) state).

(** A computation that does not end the process. *)
Definition no_exit {T : Type} (m : outcome T) : Prop :=
  forall f st, m <> Exit f st.

(** ** Opcode classes and scenarios *)

(** The 256 values of a byte. *)
Definition all_bytes : list Z := map Z.of_nat (seq 0 256).

(** The [case] labels whose body calls [unused_opcode] or
    [unimplemented_instr]. *)
Definition unused_opcodes : list Z :=
  [0x08; 0x10; 0x18; 0x20; 0x28; 0x30; 0x38].

Definition unimplemented_opcodes : list Z :=
  [0x76;
   0xb8; 0xb9; 0xba; 0xbb; 0xbc; 0xbd; 0xbe; 0xbf;
   0xc0; 0xc1; 0xc4; 0xc5; 0xc7; 0xc8; 0xc9; 0xca; 0xcb; 0xcc; 0xcd; 0xcf;
   0xd0; 0xd1; 0xd2; 0xd3; 0xd4; 0xd5; 0xd7; 0xd8; 0xd9; 0xda; 0xdb; 0xdc;
   0xdd; 0xde; 0xdf;
   0xe0; 0xe1; 0xe2; 0xe3; 0xe4; 0xe5; 0xe7; 0xe8; 0xe9; 0xea; 0xeb; 0xec;
   0xed; 0xee; 0xef;
   0xf0; 0xf1; 0xf2; 0xf3; 0xf4; 0xf5; 0xf7; 0xf8; 0xf9; 0xfa; 0xfb; 0xfc;
   0xfd; 0xfe; 0xff].

Definition fatal_opcodes : list Z := unused_opcodes ++ unimplemented_opcodes.

Definition mem_op (op : Z) (ops : list Z) : bool := existsb (Z.eqb op) ops.

(** INR r and DCR r for r = B, C, D, E, H, L, A, and INR M, DCR M. *)
Definition inr_dcr_register_opcodes : list Z :=
  [0x04; 0x05; 0x0c; 0x0d; 0x14; 0x15; 0x1c; 0x1d; 0x24; 0x25; 0x2c; 0x2d;
   0x3c; 0x3d].
Definition inr_dcr_memory_opcodes : list Z := [0x34; 0x35].

(** INX and DCX of BC, DE, HL and SP. *)
Definition inx_dcx_opcodes : list Z :=
  [0x03; 0x0b; 0x13; 0x1b; 0x23; 0x2b; 0x33; 0x3b].

(** MOV r,r for r = B, C, D, E, H, L, A. *)
Definition self_move_opcodes : list Z :=
  [0x40; 0x49; 0x52; 0x5b; 0x64; 0x6d; 0x7f].

(** The address held by HL, as [read_hl_addr] computes it. *)
Definition hl_addr (state : State8080) : Z := get16bitval (h state) (l state).

(** The flags INR and DCR leave behind for the 16-bit [answer]: carry and
    padding are those of [before]. *)
Definition inr_dcr_flags (before : ConditionCodes) (answer : Z) : ConditionCodes :=
  mkCC (zero answer) (sign answer) (parity answer) (cy before)
       (auxcarry answer) (pad before).

(** States for the concrete scenarios: everything cleared, as
    [load_and_run] sets it up, with [image] as the memory. *)
Definition cleared : ConditionCodes := mkCC 0 0 0 0 0 0.
Definition boot (image : list Z) : State8080 :=
  mkState 0 0 0 0 0 0 0 0 0 image cleared 0.

(** JMP 0x0100 at address 0. *)
Definition jmp_0100 : State8080 := boot [0xc3; 0x00; 0x01].

(** JNZ 0x0100 at address 0, with Zero clear and with Zero set. *)
Definition jnz_0100_taken : State8080 := boot [0xc2; 0x00; 0x01].
Definition jnz_0100_skipped : State8080 := set_z 1 (boot [0xc2; 0x00; 0x01]).

(** ADI 1 with A = 1. *)
Definition adi_1_1 : State8080 := set_a 1 (boot [0xc6; 0x01]).

(** ADC M with A = 1, CY = 0, HL = 1 and memory[1] = 1. *)
Definition adc_m_1_1 : State8080 := set_l 1 (set_a 1 (boot [0x8e; 0x01])).

(** DAA with A = 0x9B, AC = 0, CY = 0. *)
Definition daa_9b : State8080 := set_a 0x9b (boot [0x27]).

(** MOV B,B with B = 5. *)
Definition mov_b_b : State8080 := set_b 5 (boot [0x40]).

(** INR B with B = 0xff and INX B with BC = 0xffff, carry set. *)
Definition inr_b_ff : State8080 := set_cy 1 (set_b 0xff (boot [0x04])).
Definition inx_b_ffff : State8080 :=
  set_cy 1 (set_c 0xff (set_b 0xff (boot [0x03]))).

(** INR M with HL = 1 and memory[1] = 0xff, carry set. *)
Definition inr_m_ff : State8080 := set_cy 1 (set_l 1 (boot [0x34; 0xff])).

(** RAL; RAR at address 0 with A = 0xb5 and carry set. *)
Definition ral_rar_b5 : State8080 := set_cy 1 (set_a 0xb5 (boot [0x17; 0x1f])).

(** A state whose auxiliary carry is set. *)
Definition ac_was_set : State8080 := set_ac 1 (boot []).

(** HLT at address 0 with some registers set. *)
Definition hlt_state : State8080 := set_a 7 (set_b 9 (boot [0x76])).

(** ** Reference notions for the further properties *)

(** Number of set bits among bits 0..7. *)
Definition popcount8 (v : Z) : Z :=
  fold_right (fun i acc => Z.b2z (Z.testbit v (Z.of_nat i)) + acc) 0 (seq 0 8).

(** The value a flag takes under [set_flags]: recomputed when its bit of the
    mask is set, kept otherwise. *)
Definition select (flagstoset bit new old : Z) : Z :=
  if Z.testbit flagstoset bit then new else old.

(** The condition codes after a [set_flags] that selects all five flags;
    AC is what [auxcarry] returns. *)
Definition all_flags (before : ConditionCodes) (answer : Z) : ConditionCodes :=
  mkCC (zero answer) (sign answer) (parity answer) (carry answer)
       (auxcarry answer) (pad before).

(** The 16-bit value of register pair [n] in the order of the opcode
    table: 0 is BC, 1 is DE, 2 is HL, 3 is SP. *)
Definition pair16 (n : Z) (state : State8080) : Z :=
  match n with
  | 0 => get16bitval (b state) (c state)
  | 1 => get16bitval (d state) (e state)
  | 2 => get16bitval (h state) (l state)
  | _ => sp state
  end.

(** The operand named by a 3-bit register code of the opcode table:
    B, C, D, E, H, L, the byte addressed by HL, A. *)
Definition operand (code : Z) (state : State8080) : ptr :=
  match code with
  | 0 => reg_b
  | 1 => reg_c
  | 2 => reg_d
  | 3 => reg_e
  | 4 => reg_h
  | 5 => reg_l
  | 6 => cell (hl_addr state)
  | _ => reg_a
  end.

(** The accumulator operation named by bits 5..3 of the opcodes
    0x80..0xb7. *)
Definition alu (f : Z) : State8080 -> Z -> State8080 :=
  match f with
  | 0 => add_x
  | 1 => adc_x
  | 2 => sub_x
  | 3 => sbb_x
  | 4 => ana_x
  | 5 => xra_x
  | _ => ora_x
  end.

(** Opcodes whose [case] writes a memory cell: STAX, SHLD, STA, INR M,
    DCR M, MVI M and MOV M,r. *)
Definition store_opcodes : list Z :=
  [0x02; 0x12; 0x22; 0x32; 0x34; 0x35; 0x36;
   0x70; 0x71; 0x72; 0x73; 0x74; 0x75; 0x77].

(** Opcodes whose [case] assigns SP: LXI SP, INX SP, DCX SP. *)
Definition sp_opcodes : list Z := [0x31; 0x33; 0x3b].

(** Opcodes whose [case] assigns a condition code: INR and DCR, the four
    rotations, DAD, DAA, STC, CMC, the block 0x80..0xb7 and the immediate
    forms. *)
Definition flag_opcodes : list Z :=
  inr_dcr_register_opcodes ++ inr_dcr_memory_opcodes
  ++ [0x07; 0x0f; 0x17; 0x1f; 0x09; 0x19; 0x29; 0x39; 0x27; 0x37; 0x3f]
  ++ map Z.of_nat (seq 0x80 56)
  ++ [0xc6; 0xce; 0xd6; 0xe6; 0xf6].

(** JNZ and JMP, which assign PC from their operand. *)
Definition jump_opcodes : list Z := [0xc2; 0xc3].

(** Encoded length of an instruction: the opcode byte and the operand
    bytes its [case] skips with [state->pc += k]. *)
Definition instr_length (op : Z) : Z :=
  match op with
  | 0x01 | 0x11 | 0x21 | 0x31 | 0x22 | 0x2a | 0x32 | 0x3a | 0xc2 => 3
  | 0x06 | 0x0e | 0x16 | 0x1e | 0x26 | 0x2e | 0x36 | 0x3e
  | 0xc6 | 0xce | 0xd6 | 0xe6 | 0xf6 => 2
  | _ => 1
  end.

(** ** Further scenarios *)

(** DAD SP with HL = 0x8000 and SP = 0x8000. *)
Definition dad_sp_8000 : State8080 := set_sp 0x8000 (set_h 0x80 (boot [0x39])).

(** LXI SP,0x1234 at address 0, carry set. *)
Definition lxi_sp_1234 : State8080 := set_cy 1 (boot [0x31; 0x34; 0x12]).

(** A = 0xff; A = 1; A = 7 with carry set; A = 0xf0. *)
Definition acc_ff : State8080 := set_a 0xff (boot []).
Definition acc_01 : State8080 := set_a 1 (boot []).
Definition acc_07_carry : State8080 := set_cy 1 (set_a 7 (boot [])).
Definition acc_f0 : State8080 := set_a 0xf0 (boot []).

(** DCX D with DE = 0. *)
Definition dcx_d_0000 : State8080 := boot [0x1b].

(** MOV M,A with HL = 0x8000 in a one-byte memory. *)
Definition hl_outside : State8080 := set_h 0x80 (boot [0x77]).

(** RLC; RRC at address 0 with A = 0xb5, and RRC, RAR alone with carry
    set. *)
Definition rlc_rrc_b5 : State8080 := set_a 0xb5 (boot [0x07; 0x0f]).
Definition rrc_b5 : State8080 := set_cy 1 (set_a 0xb5 (boot [0x0f])).
Definition rar_b5 : State8080 := set_cy 1 (set_a 0xb5 (boot [0x1f])).

(** CMA with A = 0x0f; CMC with carry set; STC. *)
Definition cma_0f : State8080 := set_a 0x0f (boot [0x2f]).
Definition cmc_carry : State8080 := set_cy 1 (boot [0x3f]).
Definition stc_clear : State8080 := boot [0x37].

(** DAA with A = 0x42. *)
Definition daa_42 : State8080 := set_a 0x42 (boot [0x27]).

(** MOV B,M with HL = 1 and memory[1] = 0x99; SUB M with A = 5, HL = 1 and
    memory[1] = 7. *)
Definition mov_b_m : State8080 := set_l 1 (boot [0x46; 0x99]).
Definition sub_m_5_7 : State8080 := set_l 1 (set_a 5 (boot [0x96; 0x07])).

(** ACI 7, SUI 7, ANI 7 and ORI 7 with A = 5 and carry set. *)
Definition aci_5_7 : State8080 := set_cy 1 (set_a 5 (boot [0xce; 0x07])).
Definition sui_5_7 : State8080 := set_cy 1 (set_a 5 (boot [0xd6; 0x07])).
Definition ani_5_7 : State8080 := set_cy 1 (set_a 5 (boot [0xe6; 0x07])).
Definition ori_5_7 : State8080 := set_cy 1 (set_a 5 (boot [0xf6; 0x07])).


(** * Properties *)

(** ** Arithmetic on the fixed-width types *)

Lemma u16_idem_add (t k : Z) : u16 (u16 t + k) = u16 (t + k).
Proof. unfold u16. apply Zplus_mod_idemp_l. Qed.

Lemma bit1_of_bool (t : bool) : bit1 (of_bool t) = of_bool t.
Proof. now destruct t. Qed.

Lemma bit1_flag (v : Z) : flag v -> bit1 v = v.
Proof. now intros [-> | ->]. Qed.

(** A property checked on the 256 byte values holds of every byte. *)
Lemma byte_in_all_bytes (v : Z) : byte v -> In v all_bytes.
Proof.
  intros Hv. unfold all_bytes. apply in_map_iff.
  exists (Z.to_nat v). split; [unfold byte in Hv; lia |].
  apply in_seq. unfold byte in Hv. lia.
Qed.

Lemma byte_cases (P : Z -> bool) :
  forallb P all_bytes = true -> forall v, byte v -> P v = true.
Proof.
  intros Hall v Hv. rewrite forallb_forall in Hall.
  apply Hall, byte_in_all_bytes, Hv.
Qed.

Lemma byte_u8_land (answer : Z) : byte (u8 (Z.land answer 0xff)).
Proof. unfold byte, u8. apply Z.mod_pos_bound. lia. Qed.

(** ** The parity loop *)

(** Eight rounds are enough: the loop has stopped by itself, on
    [ans8bit == 0], for every argument of [parity]. *)
Lemma parity_loop_stops (answer : Z) :
  snd (parity_loop 8 0 (u8 (Z.land answer 0xff))) = 0.
Proof.
  apply Z.eqb_eq.
  apply (byte_cases (fun v => snd (parity_loop 8 0 v) =? 0)).
  - vm_compute. reflexivity.
  - apply byte_u8_land.
Qed.

Lemma parity_loop_flag (fuel : nat) (q v : Z) :
  flag q -> flag (fst (parity_loop fuel q v)).
Proof.
  revert q v. induction fuel as [| fuel IH]; intros q v Hq; simpl; [exact Hq |].
  destruct (truth v); simpl; [| exact Hq].
  apply IH. unfold cnot. destruct (q =? 0); [right | left]; reflexivity.
Qed.

Lemma parity_flag (answer : Z) : flag (parity answer).
Proof. unfold parity. apply parity_loop_flag. left. reflexivity. Qed.

(** ** Frame of the flag engine and of the program counter *)

Lemma set_flags_only_cc (st : State8080) (answer flagstoset : Z) :
  set_flags st answer flagstoset
  = set_cc (cc (set_flags st answer flagstoset)) st.
Proof.
  unfold set_flags, when_set. cbv zeta.
  repeat match goal with |- context [truth ?v] => destruct (truth v) end;
    destruct st; reflexivity.
Qed.

Lemma set_pc_set_pc (t k : Z) (st : State8080) :
  set_pc (pc (set_pc t st) + k) (set_pc t st) = set_pc (t + k) st.
Proof. unfold set_pc; simpl. now rewrite u16_idem_add. Qed.

Lemma in_memory_load (st : State8080) (addr : Z) :
  in_memory st addr -> exists v, load st addr = Next v.
Proof.
  intros [Hlo Hhi]. unfold load.
  destruct (Z.ltb_spec addr 0) as [Hneg | _]; [lia |].
  destruct (memory st !! Z.to_nat addr) as [v |] eqn:Hget; [now exists v |].
  apply lookup_ge_None in Hget. lia.
Qed.

Lemma in_memory_store (st : State8080) (addr v : Z) :
  in_memory st addr ->
  store addr v st
  = Next (set_memory (<[Z.to_nat addr := u8 v]> (memory st)) st).
Proof.
  intros [Hlo Hhi]. unfold store.
  destruct (Z.ltb_spec addr 0) as [Hneg | _]; [lia |].
  destruct (Z.ltb_spec addr (Z.of_nat (length (memory st)))) as [_ | Hge];
    [reflexivity | lia].
Qed.

(** One step, once the opcode at [pc] is known. *)
Lemma emulate_op_fetch (st : State8080) (op : Z) :
  load st (pc st) = Next op ->
  emulate_op st = (st' <- exec op (pc st) st ;; Next (set_pc (pc st' + 1) st')).
Proof. intros Hop. unfold emulate_op. cbv zeta. now rewrite Hop. Qed.

Ltac step Hop :=
  rewrite (emulate_op_fetch _ _ Hop); cbv beta iota delta [exec].

(** ** Jumps *)

(** C1. JMP (0xC3) with address bytes [lo] at [pc + 1] and [hi] at [pc + 2]
    returns with every field unchanged except PC, and PC is the decoded
    target [(hi << 8) | lo] plus one (modulo 2^16): the [switch] stores the
    target and the trailing [state->pc += 1] is still executed.  For the
    target 0x0100 PC ends at 0x0101, not at 0x0100. *)
Theorem jmp_lands_one_past_target (st : State8080) (lo hi : Z) :
  load st (pc st) = Next 0xc3 ->
  load st (pc st + 1) = Next lo ->
  load st (pc st + 2) = Next hi ->
  emulate_op st = Next (set_pc (Z.lor (Z.shiftl hi 8) lo + 1) st).
Proof.
  intros Hop Hlo Hhi. step Hop.
  rewrite Hhi, Hlo. cbn [bind].
  now rewrite set_pc_set_pc.
Qed.

Lemma jmp_0100_lands_on_0101 :
  emulate_op jmp_0100 = Next (set_pc 0x0101 jmp_0100).
Proof.
  apply (jmp_lands_one_past_target jmp_0100 0x00 0x01); reflexivity.
Defined.

(** C5. JNZ (0xC2): with Zero set the branch is not taken and PC ends three
    bytes after the opcode (modulo 2^16); with Zero clear PC ends at the
    decoded target plus one, for the same reason as in C1.  Nothing else
    changes. *)
Theorem jnz_skips_or_lands_one_past_target (st : State8080) (lo hi : Z) :
  load st (pc st) = Next 0xc2 ->
  load st (pc st + 1) = Next lo ->
  load st (pc st + 2) = Next hi ->
  (z (cc st) <> 0 -> emulate_op st = Next (set_pc (pc st + 3) st)) /\
  (z (cc st) = 0 ->
   emulate_op st = Next (set_pc (Z.lor (Z.shiftl hi 8) lo + 1) st)).
Proof.
  intros Hop Hlo Hhi. split; intros Hz; step Hop.
  - apply Z.eqb_neq in Hz. rewrite Hz. cbn [bind].
    rewrite set_pc_set_pc. do 2 f_equal. lia.
  - rewrite Hz. cbn [Z.eqb]. rewrite Hhi, Hlo. cbn [bind].
    now rewrite set_pc_set_pc.
Qed.

Lemma jnz_0100_lands_on_0101 :
  emulate_op jnz_0100_skipped = Next (set_pc 3 jnz_0100_skipped) /\
  emulate_op jnz_0100_taken = Next (set_pc 0x0101 jnz_0100_taken).
Proof.
  split.
  - apply (jnz_skips_or_lands_one_past_target jnz_0100_skipped 0x00 0x01);
      [reflexivity | reflexivity | reflexivity | vm_compute; discriminate].
  - apply (jnz_skips_or_lands_one_past_target jnz_0100_taken 0x00 0x01);
      reflexivity.
Defined.

(** ** Immediate and memory additions *)

(** C2. ADI (0xC6) with immediate [imm] sets all five flags from the
    untruncated sum [A + imm] but never writes the sum back: the accumulator
    keeps its old value.  (SUI, ACI, ANI and ORI do store their result.) *)
Theorem adi_keeps_accumulator (st : State8080) (imm : Z) :
  load st (pc st) = Next 0xc6 ->
  load st (pc st + 1) = Next imm ->
  exists st',
    emulate_op st = Next st' /\
    a st' = a st /\
    cc st' = cc (set_flags st (u16 (u16 (a st) + u16 imm)) SET_ALL_FLAGS).
Proof.
  intros Hop Himm. step Hop. rewrite Himm. cbn [bind].
  eexists. split; [reflexivity |].
  rewrite set_flags_only_cc. split; reflexivity.
Qed.

Lemma adi_1_1_keeps_1 :
  exists st',
    emulate_op adi_1_1 = Next st' /\
    a st' = 1 /\
    cc st' = cc (set_flags adi_1_1 2 SET_ALL_FLAGS).
Proof.
  apply (adi_keeps_accumulator adi_1_1 1); reflexivity.
Defined.

(** C3. ADC M (0x8E) has no [break]: after the add-with-carry of the
    HL-addressed byte [m] control falls into [case 0x8f] and a second
    add-with-carry, of the new accumulator to itself with the new carry, is
    executed before the step returns. *)
Theorem adc_m_adds_twice (st : State8080) (m : Z) :
  load st (pc st) = Next 0x8e ->
  load st (hl_addr st) = Next m ->
  emulate_op st
  = Next (set_pc (pc st + 1) (adc_x (adc_x st m) (a (adc_x st m)))).
Proof.
  intros Hop Hm. step Hop.
  unfold read_hl, read_hl_addr, read_addr. cbn [deref bind].
  fold (hl_addr st). rewrite Hm. cbn [bind].
  reflexivity.
Qed.

Lemma adc_m_1_1_gives_4 :
  exists st', emulate_op adc_m_1_1 = Next st' /\ a st' = 4.
Proof.
  eexists. split.
  - apply (adc_m_adds_twice adc_m_1_1 1); reflexivity.
  - reflexivity.
Defined.

(** ** Decimal adjust *)

(** C4. DAA (0x27) on A = 0x9B with AC = 0 and CY = 0 returns with CY = 1
    but with A = 0x0B: step 1 adds 6 to the accumulator (0xA1), step 2
    recombines the adjusted high nibble with [least4], which still holds
    the low nibble read before step 1. *)
Theorem daa_9b_gives_0b (st : State8080) :
  load st (pc st) = Next 0x27 ->
  a st = 0x9b ->
  ac (cc st) = 0 ->
  cy (cc st) = 0 ->
  exists st',
    emulate_op st = Next st' /\ a st' = 0x0b /\ cy (cc st') = 1.
Proof.
  intros Hop Ha Hac Hcy. step Hop.
  rewrite Ha, Hac. cbn [bind].
  eexists. split; [reflexivity |].
  split; vm_compute; reflexivity.
Qed.

Lemma daa_9b_scenario :
  exists st',
    emulate_op daa_9b = Next st' /\ a st' = 0x0b /\ cy (cc st') = 1.
Proof.
  apply (daa_9b_gives_0b daa_9b); reflexivity.
Defined.

(** ** Auxiliary carry *)

Lemma auxcarry_zero (answer : Z) : auxcarry answer = 0.
Proof.
  unfold auxcarry. cbv zeta.
  set (cleaned := u8 (Z.land (u8 (Z.land answer 0xff)) 0x1f)).
  assert (Hc : 0 <= cleaned < 256) by (apply Z.mod_pos_bound; lia).
  rewrite Z.gtb_ltb. destruct (Z.ltb_spec 0xff cleaned); [lia | reflexivity].
Qed.

(** A mask with bit 3 set selects the AC update. *)
Lemma ac_selected (flagstoset : Z) :
  Z.testbit flagstoset 3 = true ->
  truth (Z.land (u8 (Z.land flagstoset 0xf8)) SET_AC_FLAG) = true.
Proof.
  intros Hbit. unfold truth, u8.
  change 256 with (2 ^ 8). rewrite <- Z.land_ones by lia.
  rewrite <- !Z.land_assoc.
  change (Z.land 0xf8 (Z.land (Z.ones 8) SET_AC_FLAG)) with (2 ^ 3).
  apply negb_true_iff, Z.eqb_neq. intros Hzero.
  assert (Hb : Z.testbit (Z.land flagstoset (2 ^ 3)) 3 = true).
  { rewrite Z.land_spec, Hbit. reflexivity. }
  rewrite Hzero, Z.bits_0 in Hb. discriminate.
Qed.

(** C6. [auxcarry] returns 0 for every argument (its 8-bit [cleaned] is
    compared with 0xff), so does [auxcarry32], and every call of [set_flags]
    or [set_flags32] whose mask selects AC (bit 3 of [flagstoset]) leaves
    the AC flag at 0, whatever the answer and the previous state. *)
Theorem auxiliary_carry_always_clear :
  (forall answer, auxcarry answer = 0) /\
  (forall answer, auxcarry32 answer = 0) /\
  (forall st answer flagstoset,
     Z.testbit flagstoset 3 = true ->
     ac (cc (set_flags st answer flagstoset)) = 0) /\
  (forall st answer flagstoset,
     Z.testbit flagstoset 3 = true ->
     ac (cc (set_flags32 st answer flagstoset)) = 0).
Proof.
  split; [exact auxcarry_zero |].
  split; [intros answer; apply auxcarry_zero |].
  split; intros st answer flagstoset Hbit.
  - unfold set_flags. cbv zeta. unfold when_set at 1.
    rewrite (ac_selected _ Hbit), auxcarry_zero. reflexivity.
  - unfold set_flags32. cbv zeta. unfold when_set at 1.
    rewrite (ac_selected _ Hbit). unfold auxcarry32.
    rewrite auxcarry_zero. reflexivity.
Qed.

Lemma auxiliary_carry_clear_after_0f_plus_1 :
  auxcarry 0x10 = 0 /\
  ac (cc (set_flags ac_was_set 0x10 SET_ALL_FLAGS)) = 0 /\
  ac (cc (set_flags32 ac_was_set 0x10 SET_ALL_FLAGS)) = 0.
Proof.
  destruct auxiliary_carry_always_clear as (Haux & _ & Hset & Hset32).
  split; [apply Haux |].
  split; [apply Hset | apply Hset32]; reflexivity.
Defined.

(** ** Fatal opcodes *)

Lemma mem_op_In (op : Z) (ops : list Z) : mem_op op ops = true -> In op ops.
Proof.
  unfold mem_op. rewrite existsb_exists.
  intros (x & Hin & Heq). apply Z.eqb_eq in Heq. now subst.
Qed.

Lemma unused_opcode_exits (st : State8080) (op : Z) :
  load st (pc st) = Next op ->
  In op unused_opcodes ->
  emulate_op st = Exit (Unused op) st.
Proof.
  intros Hop Hin. unfold unused_opcodes in Hin. simpl in Hin.
  repeat destruct Hin as [<- | Hin]; try contradiction;
    step Hop; unfold unused_opcode; rewrite Hop; reflexivity.
Qed.

Lemma unimplemented_opcode_exits (st : State8080) (op : Z) :
  load st (pc st) = Next op ->
  In op unimplemented_opcodes ->
  emulate_op st = Exit Unimplemented st.
Proof.
  intros Hop Hin. unfold unimplemented_opcodes in Hin. simpl in Hin.
  repeat destruct Hin as [<- | Hin]; try contradiction;
    step Hop; reflexivity.
Qed.

(** C7. When the opcode at PC is one whose [case] calls [unused_opcode] or
    [unimplemented_instr] (HLT 0x76 among them), the step does not return:
    the process exits in the handler, and the state it holds at that moment
    is the starting state, registers, flags, SP, PC and memory included. *)
Theorem fatal_opcode_exits_with_state_intact (st : State8080) (op : Z) :
  load st (pc st) = Next op ->
  mem_op op fatal_opcodes = true ->
  exists f, emulate_op st = Exit f st.
Proof.
  intros Hop Hin. apply mem_op_In in Hin.
  unfold fatal_opcodes in Hin. apply in_app_or in Hin as [Hin | Hin].
  - exists (Unused op). now apply unused_opcode_exits.
  - exists Unimplemented. now apply (unimplemented_opcode_exits st op).
Qed.

Lemma hlt_exits_with_state_intact :
  exists f, emulate_op hlt_state = Exit f hlt_state.
Proof.
  apply (fatal_opcode_exits_with_state_intact hlt_state 0x76); reflexivity.
Defined.

(** ** Only the fatal opcodes exit *)

Lemma no_exit_Next {T : Type} (v : T) : no_exit (Next v).
Proof. intros f st. discriminate. Qed.

Lemma no_exit_bind {T U : Type} (m : outcome T) (k : T -> outcome U) :
  no_exit m -> (forall v, no_exit (k v)) -> no_exit (bind m k).
Proof.
  intros Hm Hk f st. destruct m as [v | f' st' |]; simpl.
  - apply Hk.
  - now destruct (Hm f' st').
  - discriminate.
Qed.

Lemma no_exit_load (st : State8080) (addr : Z) : no_exit (load st addr).
Proof.
  intros f s. unfold load.
  destruct (addr <? 0); [discriminate |].
  destruct (memory st !! Z.to_nat addr); discriminate.
Qed.

Lemma no_exit_store (addr v : Z) (st : State8080) : no_exit (store addr v st).
Proof.
  intros f s. unfold store.
  destruct (addr <? 0); [discriminate |].
  destruct (addr <? Z.of_nat (length (memory st))); discriminate.
Qed.

Lemma no_exit_deref (st : State8080) (q : ptr) : no_exit (deref st q).
Proof. destruct q; try apply no_exit_Next. apply no_exit_load. Qed.

Lemma no_exit_assign (q : ptr) (v : Z) (st : State8080) : no_exit (assign q v st).
Proof. destruct q; try apply no_exit_Next. apply no_exit_store. Qed.

Ltac solve_no_exit :=
  repeat first
    [ apply no_exit_Next
    | apply no_exit_load
    | apply no_exit_store
    | apply no_exit_deref
    | apply no_exit_assign
    | apply no_exit_bind; [| intros ?]
    | progress cbv zeta
    | match goal with
      | |- no_exit (if ?t then _ else _) => destruct t
      end ].

(** The [switch] exits only in the cases listed in [fatal_opcodes], and
    then with the state it was entered with. *)
Lemma exec_exit (op base : Z) (st : State8080) (f : fault) (st' : State8080) :
  exec op base st = Exit f st' ->
  mem_op op fatal_opcodes = true /\ st' = st.
Proof.
  intros Hexit.
  assert (Hdone :
    forall m : outcome State8080, no_exit m -> m = Exit f st' ->
      mem_op op fatal_opcodes = true /\ st' = st).
  { intros m Hm Heq. now destruct (Hm f st'). }
  destruct op as [| q | q]; try solve [revert Hexit; apply Hdone; solve_no_exit].
  do 9 (try destruct q as [q | q |]);
    cbv beta iota delta [exec] in Hexit;
    first
      [ solve [revert Hexit; apply Hdone; solve_no_exit]
      | unfold unimplemented_instr in Hexit; injection Hexit as _ <-;
        split; reflexivity
      | unfold unused_opcode in Hexit;
        destruct (load st (pc st)) as [v | f0 s0 |] eqn:Hload; simpl in Hexit;
        [ injection Hexit as _ <-; split; reflexivity
        | now destruct (no_exit_load _ _ _ _ Hload)
        | discriminate ] ].
Qed.

(** A step that exits was dispatched on a fatal opcode and exits with the
    starting state: no case writes anything before calling a handler. *)
Lemma exit_only_on_fatal_opcode (st : State8080) (f : fault) (st' : State8080) :
  emulate_op st = Exit f st' ->
  st' = st /\
  exists op, load st (pc st) = Next op /\ mem_op op fatal_opcodes = true.
Proof.
  unfold emulate_op. cbv zeta. intros Hexit.
  destruct (load st (pc st)) as [op | f0 s0 |] eqn:Hload; simpl in Hexit.
  - destruct (exec op (pc st) st) as [s1 | f1 s1 |] eqn:Hexec;
      simpl in Hexit; try discriminate.
    injection Hexit as -> ->.
    destruct (exec_exit _ _ _ _ _ Hexec) as [Hfatal ->].
    split; [reflexivity |]. now exists op.
  - now destruct (no_exit_load _ _ _ _ Hload).
  - discriminate.
Qed.

(** ** Increments and decrements *)

Lemma when_set_on (cleaned mask : Z) (upd : State8080 -> State8080)
    (st : State8080) :
  truth (Z.land cleaned mask) = true -> when_set cleaned mask upd st = upd st.
Proof. unfold when_set. now intros ->. Qed.

Lemma when_set_off (cleaned mask : Z) (upd : State8080 -> State8080)
    (st : State8080) :
  truth (Z.land cleaned mask) = false -> when_set cleaned mask upd st = st.
Proof. unfold when_set. now intros ->. Qed.

(** [set_flags] under the mask of [inr_x] and [dcr_x]: Z, S, P and AC are
    selected, CY is not. *)
Lemma set_flags_inr_dcr (st : State8080) (answer : Z) :
  cc (set_flags st answer
        (u8 (Z.lor (Z.lor (Z.lor SET_Z_FLAG SET_S_FLAG) SET_P_FLAG) SET_AC_FLAG)))
  = inr_dcr_flags (cc st) answer.
Proof.
  unfold set_flags. cbv zeta.
  rewrite (when_set_on _ SET_AC_FLAG) by reflexivity.
  rewrite (when_set_off _ SET_CY_FLAG) by reflexivity.
  rewrite (when_set_on _ SET_P_FLAG) by reflexivity.
  rewrite (when_set_on _ SET_S_FLAG) by reflexivity.
  rewrite (when_set_on _ SET_Z_FLAG) by reflexivity.
  unfold inr_dcr_flags. cbn [set_ac set_p set_s set_z set_cc cc z s p cy ac pad].
  unfold zero, sign, auxcarry. cbv zeta. rewrite !bit1_of_bool.
  rewrite (bit1_flag _ (parity_flag answer)). reflexivity.
Qed.

Lemma deref_register (st : State8080) (q : ptr) :
  (forall offset, q <> cell offset) -> exists v, deref st q = Next v.
Proof.
  intros Hreg. destruct q; try (eexists; reflexivity).
  now destruct (Hreg offset).
Qed.

Lemma assign_register (q : ptr) (v : Z) (st : State8080) :
  (forall offset, q <> cell offset) ->
  exists st', assign q v st = Next st' /\ cc st' = cc st /\ pc st' = pc st.
Proof.
  intros Hreg.
  destruct q; try (eexists; split; [reflexivity | split; reflexivity]).
  now destruct (Hreg offset).
Qed.

Lemma inr_x_register (st : State8080) (q : ptr) :
  (forall offset, q <> cell offset) ->
  exists st' answer,
    inr_x st q = Next st' /\ cc st' = inr_dcr_flags (cc st) answer.
Proof.
  intros Hreg. unfold inr_x.
  destruct (deref_register st q Hreg) as [v ->]. cbn [bind]. cbv zeta.
  match goal with
  | |- context [assign q ?w ?s1] =>
      destruct (assign_register q w s1 Hreg) as (st' & -> & Hcc & _)
  end.
  exists st', (u16 (u16 v + 1)). split; [reflexivity |].
  rewrite Hcc. apply set_flags_inr_dcr.
Qed.

Lemma dcr_x_register (st : State8080) (q : ptr) :
  (forall offset, q <> cell offset) ->
  exists st' answer,
    dcr_x st q = Next st' /\ cc st' = inr_dcr_flags (cc st) answer.
Proof.
  intros Hreg. unfold dcr_x.
  destruct (deref_register st q Hreg) as [v ->]. cbn [bind]. cbv zeta.
  match goal with
  | |- context [assign q ?w ?s1] =>
      destruct (assign_register q w s1 Hreg) as (st' & -> & Hcc & _)
  end.
  exists st', (u16 (u16 v - 1)). split; [reflexivity |].
  rewrite Hcc. apply set_flags_inr_dcr.
Qed.

Lemma inr_x_cell (st : State8080) (offset : Z) :
  in_memory st offset ->
  exists st' answer,
    inr_x st (cell offset) = Next st' /\ cc st' = inr_dcr_flags (cc st) answer.
Proof.
  intros Hin. unfold inr_x. cbn [deref].
  destruct (in_memory_load st offset Hin) as [v ->]. cbn [bind assign].
  rewrite set_flags_only_cc. rewrite in_memory_store by exact Hin.
  eexists; eexists; split; [reflexivity |].
  cbn [cc set_memory set_cc]. apply set_flags_inr_dcr.
Qed.

Lemma dcr_x_cell (st : State8080) (offset : Z) :
  in_memory st offset ->
  exists st' answer,
    dcr_x st (cell offset) = Next st' /\ cc st' = inr_dcr_flags (cc st) answer.
Proof.
  intros Hin. unfold dcr_x. cbn [deref].
  destruct (in_memory_load st offset Hin) as [v ->]. cbn [bind assign].
  rewrite set_flags_only_cc. rewrite in_memory_store by exact Hin.
  eexists; eexists; split; [reflexivity |].
  cbn [cc set_memory set_cc]. apply set_flags_inr_dcr.
Qed.


(** C8. INR and DCR of a register, and of the HL-addressed byte when HL
    lies inside memory, return with Z, S, P and AC recomputed from the
    16-bit answer and with CY (and the padding) as before.  INX and DCX of
    BC, DE, HL and SP return with the condition codes as before. *)
Theorem inr_dcr_keep_carry_inx_dcx_keep_flags (st : State8080) (op : Z) :
  load st (pc st) = Next op ->
  (mem_op op inr_dcr_register_opcodes = true ->
   exists st' answer,
     emulate_op st = Next st' /\
     cc st' = inr_dcr_flags (cc st) answer /\
     cy (cc st') = cy (cc st)) /\
  (mem_op op inr_dcr_memory_opcodes = true ->
   in_memory st (hl_addr st) ->
   exists st' answer,
     emulate_op st = Next st' /\
     cc st' = inr_dcr_flags (cc st) answer /\
     cy (cc st') = cy (cc st)) /\
  (mem_op op inx_dcx_opcodes = true ->
   exists st', emulate_op st = Next st' /\ cc st' = cc st).
Proof.
  intros Hop. split; [| split].
  - intros Hin. apply mem_op_In in Hin.
    unfold inr_dcr_register_opcodes in Hin. simpl in Hin.
    repeat destruct Hin as [<- | Hin]; try contradiction; step Hop.
    all: match goal with
         | |- context [inr_x ?s0 ?q] =>
             destruct (inr_x_register s0 q) as (st' & answer & Hrun & Hcc);
             [discriminate |]
         | |- context [dcr_x ?s0 ?q] =>
             destruct (dcr_x_register s0 q) as (st' & answer & Hrun & Hcc);
             [discriminate |]
         end.
    all: rewrite Hrun; cbn [bind]; exists (set_pc (pc st' + 1) st'), answer;
      split; [reflexivity | split; [exact Hcc | exact (f_equal cy Hcc)]].
  - intros Hin Hhl. apply mem_op_In in Hin.
    unfold inr_dcr_memory_opcodes in Hin. simpl in Hin.
    repeat destruct Hin as [<- | Hin]; try contradiction; step Hop;
      unfold read_hl_addr, read_addr; cbn [deref bind]; fold (hl_addr st).
    + destruct (inr_x_cell st _ Hhl) as (st' & answer & Hrun & Hcc).
      rewrite Hrun; cbn [bind]; exists (set_pc (pc st' + 1) st'), answer;
        split; [reflexivity | split; [exact Hcc | exact (f_equal cy Hcc)]].
    + destruct (dcr_x_cell st _ Hhl) as (st' & answer & Hrun & Hcc).
      rewrite Hrun; cbn [bind]; exists (set_pc (pc st' + 1) st'), answer;
        split; [reflexivity | split; [exact Hcc | exact (f_equal cy Hcc)]].
  - intros Hin. apply mem_op_In in Hin.
    unfold inx_dcx_opcodes in Hin. simpl in Hin.
    repeat destruct Hin as [<- | Hin]; try contradiction; step Hop;
      eexists; (split; [reflexivity | reflexivity]).
Qed.

Lemma inr_and_inx_scenarios :
  (exists st' answer,
     emulate_op inr_b_ff = Next st' /\
     cc st' = inr_dcr_flags (cc inr_b_ff) answer /\
     cy (cc st') = cy (cc inr_b_ff)) /\
  (exists st' answer,
     emulate_op inr_m_ff = Next st' /\
     cc st' = inr_dcr_flags (cc inr_m_ff) answer /\
     cy (cc st') = cy (cc inr_m_ff)) /\
  (exists st', emulate_op inx_b_ffff = Next st' /\ cc st' = cc inx_b_ffff).
Proof.
  split; [| split].
  - destruct (inr_dcr_keep_carry_inx_dcx_keep_flags inr_b_ff 0x04 eq_refl)
      as (Hreg & _ & _).
    apply Hreg. reflexivity.
  - destruct (inr_dcr_keep_carry_inx_dcx_keep_flags inr_m_ff 0x34 eq_refl)
      as (_ & Hmem & _).
    apply Hmem; [reflexivity |].
    unfold in_memory. vm_compute. split; [discriminate | reflexivity].
  - destruct (inr_dcr_keep_carry_inx_dcx_keep_flags inx_b_ffff 0x03 eq_refl)
      as (_ & _ & Hpair).
    apply Hpair. reflexivity.
Defined.

(** ** Rotations through carry *)

Lemma is_byte_byte (v : Z) : is_byte v = true -> byte v.
Proof. unfold is_byte, byte. intros H. apply andb_true_iff in H. lia. Qed.

Lemma is_flag_flag (v : Z) : is_flag v = true -> flag v.
Proof. unfold is_flag, flag. intros H. apply orb_true_iff in H. lia. Qed.

(** RAL then RAR on the pair (accumulator [x], carry [k]). *)
Lemma ral_rar_byte (x k : Z) :
  byte x -> flag k ->
  let x1 := u8 (Z.lor (Z.shiftl x 1) (u8 k)) in
  let k1 := bit1 (u8 (Z.shiftr x 7)) in
  u8 (Z.lor (Z.shiftr x1 1) (Z.shiftl (u8 k1) 7)) = x /\
  bit1 (u8 (Z.land x1 1)) = k.
Proof.
  intros Hx Hk. cbv zeta.
  pose (ok := fun k x =>
    (u8 (Z.lor (Z.shiftr (u8 (Z.lor (Z.shiftl x 1) (u8 k))) 1)
               (Z.shiftl (u8 (bit1 (u8 (Z.shiftr x 7)))) 7)) =? x)
    && (bit1 (u8 (Z.land (u8 (Z.lor (Z.shiftl x 1) (u8 k))) 1)) =? k)).
  assert (Hok : ok k x = true).
  { destruct Hk as [-> | ->]; apply byte_cases; trivial; vm_compute; reflexivity. }
  unfold ok in Hok. apply andb_true_iff in Hok as [H1 H2].
  split; now apply Z.eqb_eq.
Qed.

(** C9. RAL (0x17) followed by RAR (0x1F), the second fetched at the PC the
    first leaves behind, both return, and the accumulator and the carry
    flag are the ones the sequence started with, for every byte in A and
    either carry bit; the whole state is the starting one with PC advanced
    by two. *)
Theorem ral_then_rar_restores (st : State8080) :
  is_byte (a st) = true ->
  is_flag (cy (cc st)) = true ->
  load st (pc st) = Next 0x17 ->
  load st (u16 (pc st + 1)) = Next 0x1f ->
  exists st1 st2,
    emulate_op st = Next st1 /\
    emulate_op st1 = Next st2 /\
    a st2 = a st /\
    cy (cc st2) = cy (cc st) /\
    st2 = set_pc (pc st + 2) st.
Proof.
  intros Ha Hcy Hral Hrar.
  apply is_byte_byte in Ha. apply is_flag_flag in Hcy.
  destruct (ral_rar_byte _ _ Ha Hcy) as [Hacc Hcarry].
  eexists. eexists. split; [step Hral; reflexivity |].
  cbn [bind].
  match goal with
  | |- emulate_op ?s1 = _ /\ _ =>
      assert (Hrar1 : load s1 (pc s1) = Next 0x1f) by exact Hrar;
      rewrite (emulate_op_fetch _ _ Hrar1)
  end.
  cbv beta iota delta [exec]. cbn [bind].
  split; [reflexivity |].
  split; [exact Hacc |]. split; [exact Hcarry |].
  clear Hral Hrar Hrar1.
  destruct st as [a0 b0 c0 d0 e0 h0 l0 sp0 pc0 mem [z0 s0 p0 cy0 ac0 pad0] ie].
  cbv [set_pc set_a set_cy set_cc a b c d e h l sp pc memory cc int_enable
       z s p cy ac pad] in *.
  rewrite Hacc, Hcarry, u16_idem_add.
  replace (pc0 + 1 + 1) with (pc0 + 2) by lia. reflexivity.
Qed.

Lemma ral_rar_b5_restores :
  exists st1 st2,
    emulate_op ral_rar_b5 = Next st1 /\
    emulate_op st1 = Next st2 /\
    a st2 = a ral_rar_b5 /\
    cy (cc st2) = cy (cc ral_rar_b5) /\
    st2 = set_pc (pc ral_rar_b5 + 2) ral_rar_b5.
Proof.
  apply (ral_then_rar_restores ral_rar_b5); reflexivity.
Defined.

(** ** Register-to-itself moves *)

Lemma u8_byte (v : Z) : byte v -> u8 v = v.
Proof. unfold byte, u8. intros Hv. now apply Z.mod_small. Qed.

Lemma wf_state_registers (st : State8080) :
  wf_state st = true ->
  byte (a st) /\ byte (b st) /\ byte (c st) /\ byte (d st) /\
  byte (e st) /\ byte (h st) /\ byte (l st).
Proof.
  unfold wf_state. rewrite !andb_true_iff.
  intros H. repeat split; apply is_byte_byte; tauto.
Qed.

(** C10.  A register-to-itself move (0x40, 0x49, 0x52, 0x5B, 0x64, 0x6D,
    0x7F) is a no-op: the step returns with every register, every flag, SP,
    the interrupt-enable byte and memory as before, and PC advanced past
    the single opcode byte (by one, modulo 2^16) as after every
    one-byte instruction. *)
Theorem self_move_only_advances_pc (st : State8080) (op : Z) :
  wf_state st = true ->
  load st (pc st) = Next op ->
  mem_op op self_move_opcodes = true ->
  emulate_op st = Next (set_pc (pc st + 1) st).
Proof.
  intros Hwf Hop Hin. apply mem_op_In in Hin.
  destruct (wf_state_registers st Hwf) as (Ha & Hb & Hc & Hd & He & Hh & Hl).
  unfold self_move_opcodes in Hin. simpl in Hin.
  repeat destruct Hin as [<- | Hin]; try contradiction; step Hop; cbn [bind];
    f_equal; clear Hop Hwf;
    destruct st as [a0 b0 c0 d0 e0 h0 l0 sp0 pc0 mem flags ie];
    cbv [set_pc set_a set_b set_c set_d set_e set_h set_l
         a b c d e h l sp pc memory cc int_enable] in *;
    rewrite u8_byte by assumption; reflexivity.
Qed.

Lemma mov_b_b_only_advances_pc :
  emulate_op mov_b_b = Next (set_pc 1 mov_b_b).
Proof.
  apply (self_move_only_advances_pc mov_b_b 0x40); reflexivity.
Defined.


(** * Further properties of the core *)

(** ** Arithmetic helpers *)

Lemma u8_land_ff (v : Z) : u8 (Z.land v 0xff) = v mod 256.
Proof.
  unfold u8. change 0xff with (Z.ones 8). rewrite Z.land_ones by lia.
  change (2 ^ 8) with 256. apply Z.mod_mod. lia.
Qed.

Lemma land_ff_mod (v : Z) : Z.land v 0xff = v mod 256.
Proof. change 0xff with (Z.ones 8). now rewrite Z.land_ones by lia. Qed.

Lemma u16_small (v : Z) : 0 <= v < 65536 -> u16 v = v.
Proof. intros Hv. unfold u16. now apply Z.mod_small. Qed.

Lemma byte_cases2 (P : Z -> Z -> bool) :
  forallb (fun x => forallb (P x) all_bytes) all_bytes = true ->
  forall x y, byte x -> byte y -> P x y = true.
Proof.
  intros Hall x y Hx Hy.
  apply (byte_cases (P x)); [| exact Hy].
  apply (byte_cases (fun x => forallb (P x) all_bytes)); assumption.
Qed.

(** Testing one bit of a mask with [&]. *)
Lemma land_pow2_truth (m k : Z) :
  0 <= k -> truth (Z.land m (2 ^ k)) = Z.testbit m k.
Proof.
  intros Hk. unfold truth.
  destruct (Z.testbit m k) eqn:Hbit.
  - apply negb_true_iff, Z.eqb_neq. intros Hzero.
    assert (Hb : Z.testbit (Z.land m (2 ^ k)) k = true).
    { rewrite Z.land_spec, Hbit, Z.pow2_bits_true by lia. reflexivity. }
    rewrite Hzero, Z.bits_0 in Hb. discriminate.
  - apply negb_false_iff, Z.eqb_eq. apply Z.bits_inj'. intros i Hi.
    rewrite Z.land_spec, Z.bits_0, Z.pow2_bits_eqb by lia.
    destruct (Z.eqb_spec k i) as [<- | _];
      [rewrite Hbit; reflexivity | apply andb_false_r].
Qed.

Lemma cleaned_bit (m k : Z) :
  3 <= k <= 7 ->
  truth (Z.land (u8 (Z.land m 0xf8)) (Z.shiftl 1 k)) = Z.testbit m k.
Proof.
  intros Hk. unfold u8. change 256 with (2 ^ 8).
  rewrite <- Z.land_ones by lia. rewrite <- !Z.land_assoc.
  rewrite Z.shiftl_1_l.
  replace (Z.land 0xf8 (Z.land (Z.ones 8) (2 ^ k))) with (2 ^ k).
  - apply land_pow2_truth. lia.
  - assert (Hcases : k = 3 \/ k = 4 \/ k = 5 \/ k = 6 \/ k = 7) by lia.
    destruct Hcases as [-> | [-> | [-> | [-> | ->]]]]; reflexivity.
Qed.

(** ** The flag engine *)

Lemma popcount8_low_byte (v : Z) : popcount8 (Z.land v 0xff) = popcount8 v.
Proof.
  unfold popcount8. cbn [seq fold_right].
  rewrite !Z.land_spec. cbn [Z.of_nat Pos.of_succ_nat Pos.succ Z.testbit].
  change 0xff with (Z.ones 8).
  rewrite !Z.ones_spec_low by lia. now rewrite !andb_true_r.
Qed.

(** [parity] returns the number of set bits of the low byte modulo 2: 1
    for an odd count, 0 for an even one, whatever the upper bits. *)
Theorem parity_is_odd_popcount (answer : Z) :
  parity answer = popcount8 answer mod 2 /\
  parity answer = parity (answer mod 256).
Proof.
  assert (Hbyte : forall v, byte v -> parity v = popcount8 v mod 2).
  { intros v Hv. apply Z.eqb_eq.
    apply (byte_cases (fun v => parity v =? popcount8 v mod 2));
      [vm_compute; reflexivity | exact Hv]. }
  assert (Hlow : parity answer = parity (answer mod 256)).
  { unfold parity. rewrite !u8_land_ff. now rewrite Z.mod_mod by lia. }
  split; [| exact Hlow].
  rewrite Hlow, Hbyte by (apply Z.mod_pos_bound; lia).
  now rewrite <- land_ff_mod, popcount8_low_byte.
Qed.

Lemma bit1_zero (answer : Z) : bit1 (zero answer) = zero answer.
Proof. apply bit1_of_bool. Qed.

Lemma bit1_sign (answer : Z) : bit1 (sign answer) = sign answer.
Proof. apply bit1_of_bool. Qed.

Lemma bit1_carry (answer : Z) : bit1 (carry answer) = carry answer.
Proof. apply bit1_of_bool. Qed.

Lemma bit1_auxcarry (answer : Z) : bit1 (auxcarry answer) = auxcarry answer.
Proof. apply bit1_of_bool. Qed.

Lemma bit1_parity (answer : Z) : bit1 (parity answer) = parity answer.
Proof. apply bit1_flag, parity_flag. Qed.

(** [set_flags] in closed form: each flag is selected by its own bit. *)
Lemma set_flags_select (st : State8080) (answer m : Z) :
  set_flags st answer m
  = set_cc (mkCC (select m 7 (zero answer) (z (cc st)))
                 (select m 6 (sign answer) (s (cc st)))
                 (select m 5 (parity answer) (p (cc st)))
                 (select m 4 (carry answer) (cy (cc st)))
                 (select m 3 (auxcarry answer) (ac (cc st)))
                 (pad (cc st))) st.
Proof.
  unfold set_flags, when_set, SET_Z_FLAG, SET_S_FLAG, SET_P_FLAG,
    SET_CY_FLAG, SET_AC_FLAG, select. cbv zeta.
  rewrite !cleaned_bit by lia.
  destruct st as [a0 b0 c0 d0 e0 h0 l0 sp0 pc0 mem [z0 s0 p0 cy0 ac0 pad0] ie].
  destruct (Z.testbit m 7), (Z.testbit m 6), (Z.testbit m 5),
    (Z.testbit m 4), (Z.testbit m 3);
    cbv [set_z set_s set_p set_cy set_ac set_cc cc z s p cy ac pad
         a b c d e h l sp pc memory int_enable];
    rewrite ?bit1_zero, ?bit1_sign, ?bit1_parity, ?bit1_carry, ?bit1_auxcarry;
    reflexivity.
Qed.

Lemma set_flags_all (st : State8080) (answer : Z) :
  set_flags st answer SET_ALL_FLAGS = set_cc (all_flags (cc st) answer) st.
Proof. rewrite set_flags_select. reflexivity. Qed.

(** [set_flags] assigns exactly the flags whose bit (7 for Z down to 3 for
    AC) is set in the mask, each from its own function of the answer; the
    other flags, the padding and everything outside the condition codes
    are kept, and the low three bits of the mask are ignored. *)
Theorem set_flags_touches_selected_flags_only (st : State8080) (answer m : Z) :
  let st' := set_flags st answer m in
  z (cc st') = select m 7 (zero answer) (z (cc st)) /\
  s (cc st') = select m 6 (sign answer) (s (cc st)) /\
  p (cc st') = select m 5 (parity answer) (p (cc st)) /\
  cy (cc st') = select m 4 (carry answer) (cy (cc st)) /\
  ac (cc st') = select m 3 (auxcarry answer) (ac (cc st)) /\
  pad (cc st') = pad (cc st) /\
  st' = set_cc (cc st') st /\
  st' = set_flags st answer (Z.land m 0xf8).
Proof.
  cbv zeta. rewrite !set_flags_select.
  repeat (split; [reflexivity |]).
  unfold select. change 0xf8 with 248.
  rewrite !Z.land_spec. cbn [Z.testbit Pos.testbit Pos.pred_N Pos.pred_double].
  now rewrite !andb_true_r.
Qed.

(** ** Accumulator arithmetic *)

Lemma add_x_closed (st : State8080) (x : Z) :
  byte (a st) -> byte x ->
  add_x st x
  = set_a ((a st + x) mod 256) (set_cc (all_flags (cc st) (a st + x)) st).
Proof.
  unfold byte. intros Ha Hx. unfold add_x. cbv zeta.
  rewrite (u16_small (a st)), (u16_small x), (u16_small (a st + x)) by lia.
  rewrite set_flags_all, land_ff_mod.
  unfold set_a. cbn [b c d e h l sp pc memory cc int_enable set_cc].
  unfold u8. now rewrite Z.mod_mod by lia.
Qed.

Lemma sub_x_answer (v x : Z) :
  byte v -> byte x ->
  u16 (u16 v - u16 x) = (if v <? x then 65536 + v - x else v - x).
Proof.
  unfold byte. intros Hv Hx.
  rewrite (u16_small v), (u16_small x) by lia. unfold u16.
  destruct (Z.ltb_spec v x).
  - rewrite <- (Z_mod_plus_full (v - x) 1 65536).
    rewrite Z.mod_small by lia. lia.
  - apply Z.mod_small. lia.
Qed.

Lemma sub_x_closed (st : State8080) (x : Z) :
  byte (a st) -> byte x ->
  sub_x st x
  = set_a ((a st - x) mod 256)
      (set_cc (all_flags (cc st) (u16 (a st - x))) st).
Proof.
  unfold byte. intros Ha Hx. unfold sub_x. cbv zeta.
  rewrite (u16_small (a st)), (u16_small x) by lia.
  rewrite set_flags_all, land_ff_mod.
  unfold set_a. cbn [b c d e h l sp pc memory cc int_enable set_cc].
  f_equal. unfold u8, u16. rewrite Z.mod_mod by lia.
  Z.to_euclidean_division_equations. lia.
Qed.

Lemma is_byte_true (v : Z) : byte v -> is_byte v = true.
Proof. unfold is_byte, byte. intros Hv. apply andb_true_iff. lia. Qed.

(** [add_x] on bytes: A becomes (A + x) mod 256, CY is set exactly when
    A + x exceeds 255, Z exactly when the new A is 0, and nothing but A and
    the condition codes changes. *)
Theorem add_x_sum_carry_zero (st : State8080) (x : Z) :
  is_byte (a st) = true ->
  is_byte x = true ->
  let st' := add_x st x in
  a st' = (a st + x) mod 256 /\
  cy (cc st') = of_bool (255 <? a st + x) /\
  z (cc st') = of_bool (a st' =? 0) /\
  st' = set_a (a st') (set_cc (cc st') st).
Proof.
  intros Ha Hx. apply is_byte_byte in Ha, Hx. cbv zeta.
  rewrite (add_x_closed st x Ha Hx).
  cbn [a cc set_a set_cc all_flags cy z b c d e h l sp pc memory int_enable].
  unfold u8, carry, zero. rewrite !Z.mod_mod, land_ff_mod, Z.gtb_ltb by lia.
  repeat split.
Qed.

Lemma add_ff_1_wraps :
  let st' := add_x acc_ff 1 in
  a st' = 0 /\ cy (cc st') = 1 /\ z (cc st') = 1 /\
  st' = set_a (a st') (set_cc (cc st') acc_ff).
Proof.
  apply (add_x_sum_carry_zero acc_ff 1); reflexivity.
Defined.

(** [sub_x] on bytes: A becomes (A - x) mod 256, CY is the borrow (set
    exactly when A < x), Z is set exactly when A = x, and nothing but A and
    the condition codes changes. *)
Theorem sub_x_difference_borrow_zero (st : State8080) (x : Z) :
  is_byte (a st) = true ->
  is_byte x = true ->
  let st' := sub_x st x in
  a st' = (a st - x) mod 256 /\
  cy (cc st') = of_bool (a st <? x) /\
  z (cc st') = of_bool (a st =? x) /\
  st' = set_a (a st') (set_cc (cc st') st).
Proof.
  intros Ha Hx. apply is_byte_byte in Ha, Hx. cbv zeta.
  rewrite (sub_x_closed st x Ha Hx).
  cbn [a cc set_a set_cc all_flags cy z b c d e h l sp pc memory int_enable].
  unfold u8. rewrite !Z.mod_mod by lia.
  assert (Hans := sub_x_answer (a st) x Ha Hx).
  unfold byte in Ha, Hx.
  rewrite (u16_small (a st)), (u16_small x) in Hans by lia.
  rewrite Hans. unfold carry, zero. rewrite land_ff_mod, Z.gtb_ltb.
  split; [reflexivity |]. split; [| split; [| reflexivity]].
  - destruct (Z.ltb_spec (a st) x); cbv iota; f_equal;
      match goal with
      | |- (0xff <? ?v) = _ => destruct (Z.ltb_spec 0xff v)
      end; try reflexivity; lia.
  - destruct (Z.ltb_spec (a st) x); cbv iota; f_equal;
      destruct (Z.eqb_spec (a st) x);
      match goal with
      | |- (?v mod 256 =? 0) = _ => destruct (Z.eqb_spec (v mod 256) 0)
      end; try reflexivity; exfalso;
      Z.to_euclidean_division_equations; lia.
Qed.

Lemma sub_1_2_borrows :
  let st' := sub_x acc_01 2 in
  a st' = 255 /\ cy (cc st') = 1 /\ z (cc st') = 0 /\
  st' = set_a (a st') (set_cc (cc st') acc_01).
Proof.
  apply (sub_x_difference_borrow_zero acc_01 2); reflexivity.
Defined.

(** [add_x] followed by [sub_x] of the same byte, and [sub_x] followed
    by [add_x], give back the accumulator. *)
Theorem add_x_sub_x_round_trip (st : State8080) (x : Z) :
  is_byte (a st) = true ->
  is_byte x = true ->
  a (sub_x (add_x st x) x) = a st /\
  a (add_x (sub_x st x) x) = a st.
Proof.
  intros Ha Hx. apply is_byte_byte in Ha, Hx.
  assert (Hadd : byte (a (add_x st x))).
  { rewrite (add_x_closed st x Ha Hx). cbn [a set_a]. unfold u8, byte.
    apply Z.mod_pos_bound. lia. }
  assert (Hsub : byte (a (sub_x st x))).
  { rewrite (sub_x_closed st x Ha Hx). cbn [a set_a]. unfold u8, byte.
    apply Z.mod_pos_bound. lia. }
  rewrite (sub_x_closed _ x Hadd Hx), (add_x_closed _ x Hsub Hx).
  rewrite (add_x_closed st x Ha Hx), (sub_x_closed st x Ha Hx).
  cbn [a set_a]. unfold u8, byte in *.
  split; Z.to_euclidean_division_equations; lia.
Qed.

Lemma add_sub_ff_1_round_trip :
  a (sub_x (add_x acc_ff 1) 1) = a acc_ff /\
  a (add_x (sub_x acc_ff 1) 1) = a acc_ff.
Proof.
  apply (add_x_sub_x_round_trip acc_ff 1); reflexivity.
Defined.

(** [adc_x] on bytes: A becomes (A + x + CY) mod 256 and CY is set
    exactly when A + x + CY exceeds 255; with CY clear it is [add_x]. *)
Theorem adc_x_adds_the_carry (st : State8080) (x : Z) :
  is_byte (a st) = true ->
  is_byte x = true ->
  is_flag (cy (cc st)) = true ->
  let st' := adc_x st x in
  a st' = (a st + x + cy (cc st)) mod 256 /\
  cy (cc st') = of_bool (255 <? a st + x + cy (cc st)) /\
  (cy (cc st) = 0 -> st' = add_x st x).
Proof.
  intros Ha Hx Hcy. apply is_byte_byte in Ha, Hx.
  apply is_flag_flag in Hcy. cbv zeta. unfold byte in Ha, Hx.
  assert (Hans : u16 (u16 (a st) + u8 (cy (cc st)) + x)
                 = a st + x + cy (cc st)).
  { rewrite (u16_small (a st)) by lia.
    assert (Hcarry : u8 (cy (cc st)) = cy (cc st))
      by (destruct Hcy as [-> | ->]; reflexivity).
    rewrite Hcarry, u16_small; destruct Hcy as [-> | ->]; lia. }
  unfold adc_x. cbv zeta. rewrite Hans, set_flags_all, land_ff_mod.
  cbn [a cc set_a set_cc all_flags cy].
  unfold u8, carry. rewrite Z.mod_mod, Z.gtb_ltb by lia.
  split; [reflexivity |]. split; [reflexivity |].
  intros Hzero. unfold add_x. cbv zeta.
  rewrite (u16_small (a st)), (u16_small x), (u16_small (a st + x)) by lia.
  rewrite Hzero, Z.add_0_r, set_flags_all, land_ff_mod. reflexivity.
Qed.

Lemma adc_scenarios :
  (a (adc_x acc_07_carry 0xf8) = 0 /\ cy (cc (adc_x acc_07_carry 0xf8)) = 1) /\
  adc_x acc_ff 1 = add_x acc_ff 1.
Proof.
  split.
  - destruct (adc_x_adds_the_carry acc_07_carry 0xf8 eq_refl eq_refl eq_refl)
      as (Hacc & Hcarry & _).
    split; [exact Hacc | exact Hcarry].
  - destruct (adc_x_adds_the_carry acc_ff 1 eq_refl eq_refl eq_refl)
      as (_ & _ & Hadd).
    apply Hadd. reflexivity.
Defined.

(** [sbb_x] on bytes: A becomes (A - x - CY) mod 256 and CY is set
    exactly when A < x + CY; with CY clear it is [sub_x]. *)
Theorem sbb_x_subtracts_the_borrow (st : State8080) (x : Z) :
  is_byte (a st) = true ->
  is_byte x = true ->
  is_flag (cy (cc st)) = true ->
  let st' := sbb_x st x in
  a st' = (a st - x - cy (cc st)) mod 256 /\
  cy (cc st') = of_bool (a st <? x + cy (cc st)) /\
  (cy (cc st) = 0 -> st' = sub_x st x).
Proof.
  intros Ha Hx Hcy. apply is_byte_byte in Ha, Hx.
  apply is_flag_flag in Hcy. cbv zeta. unfold byte in Ha, Hx.
  unfold sbb_x. cbv zeta.
  rewrite (u16_small (a st)) by lia.
  assert (Hcarry : u8 (cy (cc st)) = cy (cc st))
    by (destruct Hcy as [-> | ->]; reflexivity).
  rewrite Hcarry, set_flags_all, land_ff_mod.
  cbn [a cc set_a set_cc all_flags cy].
  split; [| split].
  - unfold u8, u16. Z.to_euclidean_division_equations. lia.
  - unfold carry, u16. rewrite Z.gtb_ltb. f_equal.
    destruct (Z.ltb_spec 0xff ((a st - x - cy (cc st)) mod 65536));
      destruct (Z.ltb_spec (a st) (x + cy (cc st))); try reflexivity;
      exfalso; destruct Hcy as [Hc | Hc]; rewrite Hc in *;
      Z.to_euclidean_division_equations; lia.
  - intros Hzero. unfold sub_x. cbv zeta.
    rewrite (u16_small (a st)), (u16_small x) by lia.
    rewrite Hzero, Z.sub_0_r, set_flags_all, land_ff_mod. reflexivity.
Qed.

Lemma sbb_scenarios :
  (a (sbb_x acc_07_carry 7) = 255 /\ cy (cc (sbb_x acc_07_carry 7)) = 1) /\
  sbb_x acc_ff 1 = sub_x acc_ff 1.
Proof.
  split.
  - destruct (sbb_x_subtracts_the_borrow acc_07_carry 7 eq_refl eq_refl eq_refl)
      as (Hacc & Hcarry & _).
    split; [exact Hacc | exact Hcarry].
  - destruct (sbb_x_subtracts_the_borrow acc_ff 1 eq_refl eq_refl eq_refl)
      as (_ & _ & Hsub).
    apply Hsub. reflexivity.
Defined.

(** ** Accumulator logic *)

Lemma byte_logic (x y : Z) :
  byte x -> byte y ->
  byte (Z.land x y) /\ byte (Z.lor x y) /\ byte (Z.lxor x y).
Proof.
  intros Hx Hy.
  assert (Hok : is_byte (Z.land x y) && is_byte (Z.lor x y)
                && is_byte (Z.lxor x y) = true).
  { apply (byte_cases2 (fun x y => is_byte (Z.land x y) && is_byte (Z.lor x y)
                                   && is_byte (Z.lxor x y)));
      [vm_compute; reflexivity | assumption | assumption]. }
  apply andb_true_iff in Hok as [Hok Hxor].
  apply andb_true_iff in Hok as [Hand Hor].
  repeat split; now apply is_byte_byte.
Qed.

Lemma logic_closed (st : State8080) (v : Z) :
  byte v ->
  (let answer := u16 v in
   let state := set_flags st answer SET_ALL_FLAGS in
   set_a (Z.land answer 0xff) state)
  = set_a v (set_cc (all_flags (cc st) v) st).
Proof.
  unfold byte. intros Hv. cbv zeta.
  rewrite u16_small, set_flags_all, land_ff_mod by lia.
  now rewrite Z.mod_small by lia.
Qed.

(** [ana_x], [xra_x] and [ora_x] on bytes store the bitwise AND, XOR and
    OR in A and always clear CY. *)
Theorem logic_ops_clear_carry (st : State8080) (x : Z) :
  is_byte (a st) = true ->
  is_byte x = true ->
  (a (ana_x st x) = Z.land (a st) x /\ cy (cc (ana_x st x)) = 0) /\
  (a (xra_x st x) = Z.lxor (a st) x /\ cy (cc (xra_x st x)) = 0) /\
  (a (ora_x st x) = Z.lor (a st) x /\ cy (cc (ora_x st x)) = 0).
Proof.
  intros Ha Hx. apply is_byte_byte in Ha, Hx.
  destruct (byte_logic _ _ Ha Hx) as (Hand & Hor & Hxor).
  unfold ana_x, xra_x, ora_x.
  rewrite (u16_small (a st)) by (unfold byte in Ha; lia).
  rewrite !logic_closed by assumption.
  cbn [a cc set_a set_cc all_flags cy].
  unfold carry. rewrite !Z.gtb_ltb.
  rewrite !u8_byte by assumption.
  unfold byte in Hand, Hor, Hxor.
  repeat split;
    match goal with
    | |- of_bool (0xff <? ?v) = 0 => destruct (Z.ltb_spec 0xff v)
    end; try reflexivity; lia.
Qed.

Lemma logic_f0_3c :
  (a (ana_x acc_f0 0x3c) = 0x30 /\ cy (cc (ana_x acc_f0 0x3c)) = 0) /\
  (a (xra_x acc_f0 0x3c) = 0xcc /\ cy (cc (xra_x acc_f0 0x3c)) = 0) /\
  (a (ora_x acc_f0 0x3c) = 0xfc /\ cy (cc (ora_x acc_f0 0x3c)) = 0).
Proof.
  apply (logic_ops_clear_carry acc_f0 0x3c); reflexivity.
Defined.

(** XRA A clears the accumulator and leaves Z = 1, S = 1, P = 0, CY = 0,
    AC = 0; ANA A and ORA A keep the accumulator and set Z exactly when it
    is 0. *)
Theorem logic_with_itself (st : State8080) :
  is_byte (a st) = true ->
  xra_x st (a st) = set_a 0 (set_cc (mkCC 1 1 0 0 0 (pad (cc st))) st) /\
  a (ana_x st (a st)) = a st /\
  a (ora_x st (a st)) = a st /\
  z (cc (ana_x st (a st))) = of_bool (a st =? 0) /\
  z (cc (ora_x st (a st))) = of_bool (a st =? 0).
Proof.
  intros Ha. apply is_byte_byte in Ha.
  unfold ana_x, xra_x, ora_x.
  rewrite (u16_small (a st)) by (unfold byte in Ha; lia).
  rewrite Z.lxor_nilpotent, Z.land_diag, Z.lor_diag.
  rewrite !logic_closed by (assumption || (unfold byte; lia)).
  cbn [a cc set_a set_cc all_flags z].
  rewrite u8_byte by assumption.
  unfold zero. rewrite land_ff_mod, Z.mod_small by exact Ha.
  repeat split.
Qed.

Lemma logic_f0_with_itself :
  xra_x acc_f0 (a acc_f0)
  = set_a 0 (set_cc (mkCC 1 1 0 0 0 (pad (cc acc_f0))) acc_f0) /\
  a (ana_x acc_f0 (a acc_f0)) = a acc_f0 /\
  a (ora_x acc_f0 (a acc_f0)) = a acc_f0 /\
  z (cc (ana_x acc_f0 (a acc_f0))) = 0 /\
  z (cc (ora_x acc_f0 (a acc_f0))) = 0.
Proof.
  apply (logic_with_itself acc_f0); reflexivity.
Defined.

(** ** Register pairs *)

Lemma get16bitval_bytes (hi lo : Z) :
  byte hi -> byte lo -> get16bitval hi lo = 256 * hi + lo.
Proof.
  intros Hhi Hlo. apply Z.eqb_eq.
  apply (byte_cases2 (fun hi lo => get16bitval hi lo =? 256 * hi + lo));
    [vm_compute; reflexivity | assumption | assumption].
Qed.

Lemma split16 (v : Z) :
  0 <= v ->
  get16bitval (u8 (Z.shiftr v 8)) (u8 (Z.land v 0xff)) = v mod 65536.
Proof.
  intros Hv.
  rewrite get16bitval_bytes
    by (unfold byte, u8; apply Z.mod_pos_bound; lia).
  rewrite land_ff_mod, Z.shiftr_div_pow2 by lia. unfold u8.
  change (2 ^ 8) with 256. Z.to_euclidean_division_equations. lia.
Qed.

(** [get16bitval] of two bytes is 256 * high + low; its high and low
    bytes are the two arguments again, and splitting any non-negative
    value with [>> 8] and [& 0xff] and recombining gives the value modulo
    2^16. *)
Theorem get16bitval_packs_and_unpacks (hi lo : Z) :
  is_byte hi = true ->
  is_byte lo = true ->
  get16bitval hi lo = 256 * hi + lo /\
  u8 (Z.shiftr (get16bitval hi lo) 8) = hi /\
  u8 (Z.land (get16bitval hi lo) 0xff) = lo /\
  (forall v, 0 <= v ->
     get16bitval (u8 (Z.shiftr v 8)) (u8 (Z.land v 0xff)) = v mod 65536).
Proof.
  intros Hhi Hlo. apply is_byte_byte in Hhi, Hlo.
  rewrite (get16bitval_bytes hi lo Hhi Hlo).
  unfold byte in Hhi, Hlo.
  rewrite land_ff_mod, Z.shiftr_div_pow2 by lia. unfold u8.
  change (2 ^ 8) with 256.
  split; [reflexivity |].
  split; [Z.to_euclidean_division_equations; lia |].
  split; [Z.to_euclidean_division_equations; lia |].
  exact split16.
Qed.

Lemma get16bitval_12_34 :
  get16bitval 0x12 0x34 = 0x1234 /\
  u8 (Z.shiftr (get16bitval 0x12 0x34) 8) = 0x12 /\
  u8 (Z.land (get16bitval 0x12 0x34) 0xff) = 0x34 /\
  get16bitval (u8 (Z.shiftr 0x12345 8)) (u8 (Z.land 0x12345 0xff)) = 0x2345.
Proof.
  destruct (get16bitval_packs_and_unpacks 0x12 0x34 eq_refl eq_refl)
    as (Hpack & Hhigh & Hlow & Hsplit).
  split; [exact Hpack |]. split; [exact Hhigh |]. split; [exact Hlow |].
  apply (Hsplit 0x12345). lia.
Defined.

Ltac fields :=
  cbn [a b c d e h l sp pc memory cc int_enable z s p cy ac pad
       set_a set_b set_c set_d set_e set_h set_l set_sp set_pc set_memory
       set_cc set_z set_s set_p set_cy set_ac].

(** Evaluate the opcode in [Hop] to a literal and select its [case]. *)
Ltac step_at Hop :=
  match type of Hop with
  | _ = Next ?v =>
      let v' := eval vm_compute in v in change v with v' in Hop
  end;
  rewrite (emulate_op_fetch _ _ Hop); cbv beta iota delta [exec].

Lemma pair_index (n : Z) : 0 <= n <= 3 -> n = 0 \/ n = 1 \/ n = 2 \/ n = 3.
Proof. lia. Qed.

Lemma u32_pair_sum (v w : Z) :
  0 <= v < 65536 -> 0 <= w < 65536 -> u32 (v + w) = v + w.
Proof. intros Hv Hw. unfold u32. apply Z.mod_small. lia. Qed.

Lemma get16bitval_range (hi lo : Z) : 0 <= get16bitval hi lo < 65536.
Proof. unfold get16bitval, u16. apply Z.mod_pos_bound. lia. Qed.

Lemma pair_after_add (hi lo val : Z) :
  0 <= val < 65536 ->
  let result := u32 (get16bitval hi lo + val) in
  get16bitval (u8 (Z.shiftr result 8)) (u8 (Z.land result 0xff))
  = (get16bitval hi lo + val) mod 65536.
Proof.
  intros Hval. cbv zeta.
  pose proof (get16bitval_range hi lo) as Hpair.
  rewrite u32_pair_sum by assumption. apply split16. lia.
Qed.

(** For pair n = 0..3 (BC, DE, HL, SP), opcode 0x03 + 16 n adds one to
    the pair and opcode 0x0b + 16 n subtracts one, modulo 2^16; the other
    pairs, A, the condition codes and memory are unchanged and PC moves to
    the next byte. *)
Theorem inx_dcx_step_the_pair (st : State8080) (n : Z) :
  0 <= n <= 3 ->
  (load st (pc st) = Next (0x03 + 16 * n) ->
   exists st',
     emulate_op st = Next st' /\
     pair16 n st' = (pair16 n st + 1) mod 65536 /\
     (forall m, 0 <= m <= 3 -> m <> n -> pair16 m st' = pair16 m st) /\
     a st' = a st /\ cc st' = cc st /\ memory st' = memory st /\
     pc st' = u16 (pc st + 1)) /\
  (load st (pc st) = Next (0x0b + 16 * n) ->
   exists st',
     emulate_op st = Next st' /\
     pair16 n st' = (pair16 n st - 1) mod 65536 /\
     (forall m, 0 <= m <= 3 -> m <> n -> pair16 m st' = pair16 m st) /\
     a st' = a st /\ cc st' = cc st /\ memory st' = memory st /\
     pc st' = u16 (pc st + 1)).
Proof.
  intros Hn. apply pair_index in Hn.
  split; intros Hop;
    destruct Hn as [-> | [-> | [-> | ->]]]; step_at Hop;
    unfold inx_xy, dcx_xy, tworeg_add; cbn [deref bind assign fst];
    (eexists; split; [reflexivity |]); fields; unfold pair16; fields;
    (split;
     [ first
         [ rewrite pair_after_add by (vm_compute; split; congruence);
           change (u16 1) with 1; change (u16 (-1)) with 65535
         | idtac ];
       unfold u16; Z.to_euclidean_division_equations; lia
     | split;
       [ intros m Hm Hneq; apply pair_index in Hm;
         destruct Hm as [-> | [-> | [-> | ->]]];
           try contradiction; reflexivity
       | repeat split ] ]).
Qed.

Lemma inx_b_and_dcx_d_wrap :
  (exists st', emulate_op inx_b_ffff = Next st' /\ pair16 0 st' = 0) /\
  (exists st', emulate_op dcx_d_0000 = Next st' /\ pair16 1 st' = 0xffff).
Proof.
  split.
  - destruct (inx_dcx_step_the_pair inx_b_ffff 0) as [Hinx _]; [lia |].
    destruct (Hinx eq_refl) as (st' & Hrun & Hpair & _).
    exists st'. split; [exact Hrun | exact Hpair].
  - destruct (inx_dcx_step_the_pair dcx_d_0000 1) as [_ Hdcx]; [lia |].
    destruct (Hdcx eq_refl) as (st' & Hrun & Hpair & _).
    exists st'. split; [exact Hrun | exact Hpair].
Defined.

Lemma is_word_range (v : Z) : is_word v = true -> 0 <= v < 65536.
Proof. unfold is_word. intros H. apply andb_true_iff in H. lia. Qed.

Lemma pair16_range (n : Z) (st : State8080) :
  is_word (sp st) = true -> 0 <= pair16 n st < 65536.
Proof.
  intros Hsp. apply is_word_range in Hsp.
  unfold pair16. destruct n as [| [q | q |] |];
    try destruct q as [q | q |]; try exact Hsp; apply get16bitval_range.
Qed.

(** For pair n = 0..3, opcode 0x09 + 16 n (DAD) adds the pair to HL
    modulo 2^16, DAD H doubling HL, and sets CY exactly when the sum
    exceeds 0xffff; Z, S, P, AC, A, the other pairs and memory are
    unchanged. *)
Theorem dad_adds_the_pair_to_hl (st : State8080) (n : Z) :
  0 <= n <= 3 ->
  is_word (sp st) = true ->
  load st (pc st) = Next (0x09 + 16 * n) ->
  exists st',
    emulate_op st = Next st' /\
    pair16 2 st' = (pair16 2 st + pair16 n st) mod 65536 /\
    cy (cc st') = of_bool (65535 <? pair16 2 st + pair16 n st) /\
    z (cc st') = z (cc st) /\ s (cc st') = s (cc st) /\
    p (cc st') = p (cc st) /\ ac (cc st') = ac (cc st) /\
    a st' = a st /\ pair16 0 st' = pair16 0 st /\
    pair16 1 st' = pair16 1 st /\ pair16 3 st' = pair16 3 st /\
    memory st' = memory st /\ pc st' = u16 (pc st + 1).
Proof.
  intros Hn Hsp Hop.
  pose proof (pair16_range n st Hsp) as Hrange.
  pose proof (get16bitval_range (h st) (l st)) as Hhl.
  apply pair_index in Hn.
  destruct Hn as [-> | [-> | [-> | ->]]]; step_at Hop;
    unfold dad_xy, tworeg_add; cbn [deref bind assign fst snd];
    (eexists; split; [reflexivity |]); fields; unfold pair16 in *; fields;
    rewrite pair_after_add by assumption;
    rewrite u32_pair_sum by assumption;
    rewrite bit1_of_bool, Z.gtb_ltb;
    repeat split.
Qed.

Lemma dad_sp_8000_carries :
  exists st',
    emulate_op dad_sp_8000 = Next st' /\
    pair16 2 st' = 0 /\ cy (cc st') = 1.
Proof.
  destruct (dad_adds_the_pair_to_hl dad_sp_8000 3) as (st' & Hrun & Hsum & Hcarry & _);
    [lia | reflexivity | reflexivity |].
  exists st'. split; [exact Hrun |]. split; [exact Hsum | exact Hcarry].
Defined.

(** For pair n = 0..3, opcode 0x01 + 16 n (LXI) loads the pair with
    256 * (third byte) + (second byte), leaves the other pairs, A, the
    condition codes and memory alone, and moves PC three bytes on. *)
Theorem lxi_loads_the_pair (st : State8080) (n lo hi : Z) :
  0 <= n <= 3 ->
  is_byte lo = true ->
  is_byte hi = true ->
  load st (pc st) = Next (0x01 + 16 * n) ->
  load st (pc st + 1) = Next lo ->
  load st (pc st + 2) = Next hi ->
  exists st',
    emulate_op st = Next st' /\
    pair16 n st' = 256 * hi + lo /\
    (forall m, 0 <= m <= 3 -> m <> n -> pair16 m st' = pair16 m st) /\
    a st' = a st /\ cc st' = cc st /\ memory st' = memory st /\
    pc st' = u16 (pc st + 3).
Proof.
  intros Hn Hlo Hhi Hop Hload1 Hload2.
  apply is_byte_byte in Hlo, Hhi. apply pair_index in Hn.
  destruct Hn as [-> | [-> | [-> | ->]]]; step_at Hop.
  all: repeat first
         [ rewrite Hload1
         | rewrite Hload2
         | progress cbn [bind]
         | match goal with
           | |- context [load (?f ?v ?s1) ?addr] =>
               change (load (f v s1) addr) with (load s1 addr)
           end ].
  all: (eexists; split; [reflexivity |]); fields; unfold pair16; fields.
  all: rewrite ?(u8_byte lo), ?(u8_byte hi) by assumption.
  all: split;
    [ first [ apply get16bitval_bytes; assumption
            | exact (get16bitval_bytes hi lo Hhi Hlo) ]
    | split;
      [ intros m Hm Hneq; apply pair_index in Hm;
        destruct Hm as [-> | [-> | [-> | ->]]];
          try contradiction; reflexivity
      | repeat split; unfold u16; Z.to_euclidean_division_equations; lia ] ].
Qed.

Lemma lxi_sp_1234_loads :
  exists st',
    emulate_op lxi_sp_1234 = Next st' /\ pair16 3 st' = 0x1234 /\ pc st' = 3.
Proof.
  destruct (lxi_loads_the_pair lxi_sp_1234 3 0x34 0x12)
    as (st' & Hrun & Hpair & _ & _ & _ & _ & Hpc);
    [lia | reflexivity | reflexivity | reflexivity | reflexivity | reflexivity |].
  exists st'. split; [exact Hrun |]. split; [exact Hpair | exact Hpc].
Defined.

Lemma u8_high_low (hi lo k : Z) :
  byte hi -> byte lo -> (k = 1 \/ k = 65535) ->
  let r1 := u32 (get16bitval hi lo + k) in
  let hi1 := u8 (Z.shiftr r1 8) in
  let lo1 := u8 (Z.land r1 0xff) in
  let r2 := u32 (get16bitval hi1 lo1 + (65536 - k)) in
  u8 (Z.shiftr r2 8) = hi /\ u8 (Z.land r2 0xff) = lo.
Proof.
  intros Hhi Hlo Hk. cbv zeta.
  assert (Hk' : 0 <= k < 65536 /\ 0 <= 65536 - k < 65536)
    by (destruct Hk as [-> | ->]; lia).
  destruct Hk' as [Hk1 Hk2].
  pose proof (pair_after_add hi lo k Hk1) as Hfirst. cbv zeta in Hfirst.
  pose proof (get16bitval_range (u8 (Z.shiftr (u32 (get16bitval hi lo + k)) 8))
                (u8 (Z.land (u32 (get16bitval hi lo + k)) 0xff))) as Hmid.
  rewrite (u32_pair_sum _ (65536 - k)) by assumption.
  rewrite Hfirst in *. rewrite (get16bitval_bytes hi lo Hhi Hlo) in *.
  rewrite land_ff_mod, Z.shiftr_div_pow2 by lia. change (2 ^ 8) with 256.
  unfold u8, byte in *.
  split; destruct Hk as [-> | ->]; Z.to_euclidean_division_equations; lia.
Qed.

(** On BC, DE and HL, [inx_xy] followed by [dcx_xy], and [dcx_xy]
    followed by [inx_xy], give back the state they started from. *)
Theorem inx_xy_dcx_xy_round_trip (st : State8080) :
  wf_state st = true ->
  (exists st1, inx_xy reg_b reg_c st = Next st1 /\ dcx_xy reg_b reg_c st1 = Next st) /\
  (exists st1, inx_xy reg_d reg_e st = Next st1 /\ dcx_xy reg_d reg_e st1 = Next st) /\
  (exists st1, inx_xy reg_h reg_l st = Next st1 /\ dcx_xy reg_h reg_l st1 = Next st) /\
  (exists st1, dcx_xy reg_b reg_c st = Next st1 /\ inx_xy reg_b reg_c st1 = Next st) /\
  (exists st1, dcx_xy reg_d reg_e st = Next st1 /\ inx_xy reg_d reg_e st1 = Next st) /\
  (exists st1, dcx_xy reg_h reg_l st = Next st1 /\ inx_xy reg_h reg_l st1 = Next st).
Proof.
  intros Hwf.
  destruct (wf_state_registers st Hwf) as (Ha & Hb & Hc & Hd & He & Hh & Hl).
  destruct st as [a0 b0 c0 d0 e0 h0 l0 sp0 pc0 mem flags ie].
  cbn [a b c d e h l] in *.
  repeat split; unfold inx_xy, dcx_xy, tworeg_add;
    cbn [deref bind assign fst]; (eexists; split; [reflexivity |]);
    cbv [set_b set_c set_d set_e set_h set_l
         a b c d e h l sp pc memory cc int_enable];
    change (u16 1) with 1; change (u16 (-1)) with 65535; f_equal.
  all: match goal with
       | |- context [u32 (get16bitval ?hi ?lo + ?k)] =>
           destruct (u8_high_low hi lo k) as [Hhigh Hlow];
           [assumption | assumption | auto |]
       end.
  all: cbv zeta in Hhigh, Hlow; change (65536 - 1) with 65535 in *;
    change (65536 - 65535) with 1 in *;
    first [exact Hhigh | exact Hlow | now rewrite Hhigh, Hlow].
Qed.

Lemma inx_dcx_b_ffff_round_trip :
  exists st1,
    inx_xy reg_b reg_c inx_b_ffff = Next st1 /\
    dcx_xy reg_b reg_c st1 = Next inx_b_ffff.
Proof.
  destruct (inx_xy_dcx_xy_round_trip inx_b_ffff eq_refl) as (Hbc & _).
  exact Hbc.
Defined.

(** ** Memory through HL *)

Lemma load_outside (st : State8080) (addr : Z) :
  ~ in_memory st addr -> load st addr = Undefined.
Proof.
  unfold in_memory, load. intros Hout.
  destruct (Z.ltb_spec addr 0) as [_ | Hpos]; [reflexivity |].
  destruct (memory st !! Z.to_nat addr) as [v |] eqn:Hget; [| reflexivity].
  apply lookup_lt_Some in Hget. lia.
Qed.

Lemma store_outside (st : State8080) (addr v : Z) :
  ~ in_memory st addr -> store addr v st = Undefined.
Proof.
  unfold in_memory, store. intros Hout.
  destruct (Z.ltb_spec addr 0) as [_ | Hpos]; [reflexivity |].
  destruct (Z.ltb_spec addr (Z.of_nat (length (memory st)))); [lia | reflexivity].
Qed.

Lemma load_after_store (st : State8080) (addr v other : Z) :
  in_memory st addr ->
  let st' := set_memory (<[Z.to_nat addr := u8 v]> (memory st)) st in
  load st' addr = Next (u8 v) /\
  (other <> addr -> load st' other = load st other).
Proof.
  intros [Hlo Hhi]. cbv zeta. unfold load. cbn [memory set_memory].
  split.
  - destruct (Z.ltb_spec addr 0); [lia |].
    rewrite list_lookup_insert_eq by lia. reflexivity.
  - intros Hneq. destruct (Z.ltb_spec other 0); [reflexivity |].
    rewrite list_lookup_insert_ne by lia. reflexivity.
Qed.

(** When HL addresses a cell of memory, [set_hl] writes the byte there,
    [read_hl] then reads it back, every other cell and the size of memory
    are unchanged and nothing outside memory changes; when HL lies outside
    memory both accesses are undefined. *)
Theorem set_hl_then_read_hl (st : State8080) (v : Z) :
  (in_memory st (hl_addr st) ->
   exists st',
     set_hl st v = Next st' /\
     read_hl st' = Next (u8 v) /\
     (forall addr, addr <> hl_addr st -> load st' addr = load st addr) /\
     length (memory st') = length (memory st) /\
     st' = set_memory (memory st') st) /\
  (~ in_memory st (hl_addr st) ->
   set_hl st v = Undefined /\ read_hl st = Undefined).
Proof.
  unfold set_hl, read_hl, read_hl_addr, read_addr. cbn [deref bind].
  fold (hl_addr st). split.
  - intros Hin. rewrite in_memory_store by exact Hin.
    eexists. split; [reflexivity |].
    cbn [deref h l set_memory bind]. fold (hl_addr st).
    destruct (load_after_store st (hl_addr st) v 0 Hin) as [Hsame _].
    split; [exact Hsame |].
    split; [intros addr Hneq; now apply (load_after_store st (hl_addr st) v addr) |].
    split; [cbn [memory set_memory]; apply length_insert | reflexivity].
  - intros Hout. split; [now apply store_outside | now apply load_outside].
Qed.

Lemma set_hl_inside_and_outside :
  (exists st', set_hl inr_m_ff 0x5a = Next st' /\ read_hl st' = Next 0x5a) /\
  (set_hl hl_outside 0x5a = Undefined /\ read_hl hl_outside = Undefined).
Proof.
  destruct (set_hl_then_read_hl inr_m_ff 0x5a) as [Hin _].
  destruct (set_hl_then_read_hl hl_outside 0x5a) as [_ Hout].
  split.
  - destruct Hin as (st' & Hset & Hread & _).
    + unfold in_memory. vm_compute. split; [discriminate | reflexivity].
    + exists st'. split; [exact Hset | exact Hread].
  - apply Hout. unfold in_memory. vm_compute. intros [_ Hlt]. discriminate Hlt.
Defined.

(** ** Rotations, complements and decimal adjust *)

Lemma rotate_bytes (x k : Z) :
  byte x -> flag k ->
  u8 (Z.lor (Z.shiftl x 1) (u8 (Z.shiftr x 7))) = 2 * x mod 256 + x / 128 /\
  u8 (Z.lor (Z.shiftr x 1) (Z.shiftl (u8 (Z.land x 1)) 7))
  = x / 2 + 128 * (x mod 2) /\
  u8 (Z.lor (Z.shiftl x 1) (u8 k)) = 2 * x mod 256 + k /\
  u8 (Z.lor (Z.shiftr x 1) (Z.shiftl (u8 k) 7)) = x / 2 + 128 * k /\
  bit1 (u8 (Z.shiftr x 7)) = x / 128 /\
  bit1 (u8 (Z.land x 1)) = x mod 2.
Proof.
  intros Hx Hk.
  pose (ok := fun k x =>
    (u8 (Z.lor (Z.shiftl x 1) (u8 (Z.shiftr x 7))) =? 2 * x mod 256 + x / 128)
    && (u8 (Z.lor (Z.shiftr x 1) (Z.shiftl (u8 (Z.land x 1)) 7))
        =? x / 2 + 128 * (x mod 2))
    && (u8 (Z.lor (Z.shiftl x 1) (u8 k)) =? 2 * x mod 256 + k)
    && (u8 (Z.lor (Z.shiftr x 1) (Z.shiftl (u8 k) 7)) =? x / 2 + 128 * k)
    && (bit1 (u8 (Z.shiftr x 7)) =? x / 128)
    && (bit1 (u8 (Z.land x 1)) =? x mod 2)).
  assert (Hok : ok k x = true).
  { destruct Hk as [-> | ->]; apply byte_cases; trivial; vm_compute; reflexivity. }
  unfold ok in Hok. rewrite !andb_true_iff, !Z.eqb_eq in Hok. tauto.
Qed.

(** The four rotations as arithmetic on a byte A and a carry bit: RLC
    gives 2A mod 256 + A/128, RRC gives A/2 + 128 (A mod 2), RAL gives
    2A mod 256 + CY, RAR gives A/2 + 128 CY; CY becomes the bit shifted
    out (A/128 to the left, A mod 2 to the right) and no other flag
    changes. *)
Theorem rotate_opcodes_arithmetic (st : State8080) :
  is_byte (a st) = true ->
  is_flag (cy (cc st)) = true ->
  (load st (pc st) = Next 0x07 ->
   emulate_op st
   = Next (set_pc (pc st + 1)
             (set_a (2 * a st mod 256 + a st / 128) (set_cy (a st / 128) st)))) /\
  (load st (pc st) = Next 0x0f ->
   emulate_op st
   = Next (set_pc (pc st + 1)
             (set_a (a st / 2 + 128 * (a st mod 2)) (set_cy (a st mod 2) st)))) /\
  (load st (pc st) = Next 0x17 ->
   emulate_op st
   = Next (set_pc (pc st + 1)
             (set_a (2 * a st mod 256 + cy (cc st)) (set_cy (a st / 128) st)))) /\
  (load st (pc st) = Next 0x1f ->
   emulate_op st
   = Next (set_pc (pc st + 1)
             (set_a (a st / 2 + 128 * cy (cc st)) (set_cy (a st mod 2) st)))).
Proof.
  intros Ha Hcy. apply is_byte_byte in Ha. apply is_flag_flag in Hcy.
  destruct (rotate_bytes _ _ Ha Hcy) as (Hrlc & Hrrc & Hral & Hrar & Hhigh & Hlow).
  assert (Hset : forall v w (s0 : State8080), u8 v = u8 w -> set_a v s0 = set_a w s0)
    by (intros v w s0 Heq; unfold set_a; now rewrite Heq).
  assert (Hsetcy : forall v w (s0 : State8080),
             bit1 v = bit1 w -> set_cy v s0 = set_cy w s0)
    by (intros v w s0 Heq; unfold set_cy; cbv zeta; now rewrite Heq).
  assert (Hu8 : forall v, u8 (u8 v) = u8 v)
    by (intros v; unfold u8; apply Z.mod_mod; lia).
  assert (Hb1 : forall v, bit1 (bit1 v) = bit1 v)
    by (intros v; unfold bit1; apply Z.mod_mod; lia).
  repeat split; intros Hop; step Hop; cbn [bind]; fields; do 2 f_equal.
  - rewrite (Hsetcy (u8 (Z.shiftr (a st) 7)) (a st / 128))
      by (now rewrite <- Hhigh, Hb1).
    apply Hset. now rewrite <- Hrlc, Hu8.
  - rewrite (Hsetcy (u8 (Z.land (a st) 1)) (a st mod 2))
      by (now rewrite <- Hlow, Hb1).
    apply Hset. now rewrite <- Hrrc, Hu8.
  - rewrite (Hsetcy (u8 (Z.shiftr (a st) 7)) (a st / 128))
      by (now rewrite <- Hhigh, Hb1).
    apply Hset. now rewrite <- Hral, Hu8.
  - rewrite (Hsetcy (u8 (Z.land (a st) 1)) (a st mod 2))
      by (now rewrite <- Hlow, Hb1).
    apply Hset. now rewrite <- Hrar, Hu8.
Qed.

Lemma rotate_b5_scenarios :
  emulate_op rlc_rrc_b5
  = Next (set_pc 1 (set_a 0x6b (set_cy 1 rlc_rrc_b5))) /\
  emulate_op rrc_b5 = Next (set_pc 1 (set_a 0xda (set_cy 1 rrc_b5))) /\
  emulate_op ral_rar_b5
  = Next (set_pc 1 (set_a 0x6b (set_cy 1 ral_rar_b5))) /\
  emulate_op rar_b5 = Next (set_pc 1 (set_a 0xda (set_cy 1 rar_b5))).
Proof.
  split; [| split; [| split]].
  - destruct (rotate_opcodes_arithmetic rlc_rrc_b5 eq_refl eq_refl)
      as (Hrlc & _).
    apply Hrlc. reflexivity.
  - destruct (rotate_opcodes_arithmetic rrc_b5 eq_refl eq_refl)
      as (_ & Hrrc & _).
    apply Hrrc. reflexivity.
  - destruct (rotate_opcodes_arithmetic ral_rar_b5 eq_refl eq_refl)
      as (_ & _ & Hral & _).
    apply Hral. reflexivity.
  - destruct (rotate_opcodes_arithmetic rar_b5 eq_refl eq_refl)
      as (_ & _ & _ & Hrar).
    apply Hrar. reflexivity.
Defined.

(** RLC followed by RRC gives back the accumulator; CY ends as bit 7 of
    it and the rest of the state is as before, PC advanced by two. *)
Theorem rlc_then_rrc_restores (st : State8080) :
  is_byte (a st) = true ->
  load st (pc st) = Next 0x07 ->
  load st (u16 (pc st + 1)) = Next 0x0f ->
  exists st1 st2,
    emulate_op st = Next st1 /\
    emulate_op st1 = Next st2 /\
    a st2 = a st /\
    cy (cc st2) = a st / 128 /\
    st2 = set_pc (pc st + 2) (set_cy (a st / 128) st).
Proof.
  intros Ha Hrlc Hrrc. apply is_byte_byte in Ha.
  assert (Hok :
    (u8 (Z.lor (Z.shiftr (u8 (Z.lor (Z.shiftl (a st) 1) (u8 (Z.shiftr (a st) 7)))) 1)
           (Z.shiftl (u8 (Z.land (u8 (Z.lor (Z.shiftl (a st) 1)
                                         (u8 (Z.shiftr (a st) 7)))) 1)) 7))
     =? a st)
    && (bit1 (u8 (Z.land (u8 (Z.lor (Z.shiftl (a st) 1)
                                (u8 (Z.shiftr (a st) 7)))) 1))
        =? a st / 128) = true).
  { apply (byte_cases (fun x =>
      (u8 (Z.lor (Z.shiftr (u8 (Z.lor (Z.shiftl x 1) (u8 (Z.shiftr x 7)))) 1)
             (Z.shiftl (u8 (Z.land (u8 (Z.lor (Z.shiftl x 1)
                                           (u8 (Z.shiftr x 7)))) 1)) 7))
       =? x)
      && (bit1 (u8 (Z.land (u8 (Z.lor (Z.shiftl x 1) (u8 (Z.shiftr x 7)))) 1))
          =? x / 128)));
      [vm_compute; reflexivity | exact Ha]. }
  apply andb_true_iff in Hok as [Hacc Hcarry].
  apply Z.eqb_eq in Hacc, Hcarry.
  eexists. eexists. split; [step Hrlc; reflexivity |].
  cbn [bind].
  match goal with
  | |- emulate_op ?s1 = _ /\ _ =>
      assert (Hrrc1 : load s1 (pc s1) = Next 0x0f) by exact Hrrc;
      rewrite (emulate_op_fetch _ _ Hrrc1)
  end.
  cbv beta iota delta [exec]. cbn [bind].
  split; [reflexivity |].
  split; [exact Hacc |]. split; [exact Hcarry |].
  clear Hrlc Hrrc Hrrc1.
  destruct st as [a0 b0 c0 d0 e0 h0 l0 sp0 pc0 mem [z0 s0 p0 cy0 ac0 pad0] ie].
  cbv [set_pc set_a set_cy set_cc a b c d e h l sp pc memory cc int_enable
       z s p cy ac pad] in *.
  rewrite Hacc, Hcarry, u16_idem_add.
  replace (pc0 + 1 + 1) with (pc0 + 2) by lia.
  do 2 f_equal. unfold bit1, byte in *. Z.to_euclidean_division_equations. lia.
Qed.

Lemma rlc_rrc_b5_restores :
  exists st1 st2,
    emulate_op rlc_rrc_b5 = Next st1 /\
    emulate_op st1 = Next st2 /\
    a st2 = 0xb5 /\
    cy (cc st2) = 1 /\
    st2 = set_pc 2 (set_cy 1 rlc_rrc_b5).
Proof.
  apply (rlc_then_rrc_restores rlc_rrc_b5); reflexivity.
Defined.

(** CMA replaces A by 255 - A and touches no flag; CMC replaces CY by
    1 - CY; STC sets CY to 1; each changes nothing else but PC. *)
Theorem complement_and_carry_opcodes (st : State8080) :
  is_byte (a st) = true ->
  is_flag (cy (cc st)) = true ->
  (load st (pc st) = Next 0x2f ->
   emulate_op st = Next (set_pc (pc st + 1) (set_a (255 - a st) st))) /\
  (load st (pc st) = Next 0x3f ->
   emulate_op st = Next (set_pc (pc st + 1) (set_cy (1 - cy (cc st)) st))) /\
  (load st (pc st) = Next 0x37 ->
   emulate_op st = Next (set_pc (pc st + 1) (set_cy 1 st))).
Proof.
  intros Ha Hcy. apply is_byte_byte in Ha. apply is_flag_flag in Hcy.
  repeat split; intros Hop; step Hop; cbn [bind]; fields; do 2 f_equal.
  - unfold set_a. f_equal. unfold u8, byte in *.
    unfold Z.lnot. Z.to_euclidean_division_equations. lia.
  - unfold set_cy. cbv zeta.
    destruct Hcy as [-> | ->]; reflexivity.
Qed.

Lemma complement_scenarios :
  emulate_op cma_0f = Next (set_pc 1 (set_a 0xf0 cma_0f)) /\
  emulate_op cmc_carry = Next (set_pc 1 (set_cy 0 cmc_carry)) /\
  emulate_op stc_clear = Next (set_pc 1 (set_cy 1 stc_clear)).
Proof.
  split; [| split].
  - destruct (complement_and_carry_opcodes cma_0f eq_refl eq_refl)
      as (Hcma & _).
    apply Hcma. reflexivity.
  - destruct (complement_and_carry_opcodes cmc_carry eq_refl eq_refl)
      as (_ & Hcmc & _).
    apply Hcmc. reflexivity.
  - destruct (complement_and_carry_opcodes stc_clear eq_refl eq_refl)
      as (_ & _ & Hstc).
    apply Hstc. reflexivity.
Defined.

(** DAA on a byte whose two nibbles are both at most 9, with AC and CY
    clear, keeps the accumulator and only recomputes the flags from it. *)
Theorem daa_keeps_valid_bcd (st : State8080) :
  is_byte (a st) = true ->
  a st mod 16 <= 9 ->
  a st / 16 <= 9 ->
  ac (cc st) = 0 ->
  cy (cc st) = 0 ->
  load st (pc st) = Next 0x27 ->
  emulate_op st
  = Next (set_pc (pc st + 1) (set_cc (all_flags (cc st) (a st)) st)).
Proof.
  intros Ha Hlow Hhigh Hac Hcy Hop. apply is_byte_byte in Ha.
  assert (Hvals :
    u8 (Z.land (a st) 0xf) = a st mod 16 /\
    u8 (Z.shiftr (a st) 4) = a st / 16 /\
    u16 (Z.lor (Z.shiftl (a st / 16) 4) (a st mod 16)) = a st).
  { assert (Hok :
      (u8 (Z.land (a st) 0xf) =? a st mod 16)
      && (u8 (Z.shiftr (a st) 4) =? a st / 16)
      && (u16 (Z.lor (Z.shiftl (a st / 16) 4) (a st mod 16)) =? a st) = true).
    { apply (byte_cases (fun x =>
        (u8 (Z.land x 0xf) =? x mod 16)
        && (u8 (Z.shiftr x 4) =? x / 16)
        && (u16 (Z.lor (Z.shiftl (x / 16) 4) (x mod 16)) =? x)));
        [vm_compute; reflexivity | exact Ha]. }
    rewrite !andb_true_iff, !Z.eqb_eq in Hok. tauto. }
  destruct Hvals as (Hl4 & Hm4 & Hjoin).
  step Hop. cbv zeta. rewrite Hl4, Hac.
  replace (a st mod 16 >? 9) with false
    by (symmetry; rewrite Z.gtb_ltb; apply Z.ltb_ge; exact Hlow).
  cbn [orb truth Z.eqb negb]. rewrite Hm4, Hcy.
  replace (a st / 16 >? 9) with false
    by (symmetry; rewrite Z.gtb_ltb; apply Z.ltb_ge; exact Hhigh).
  cbn [orb truth Z.eqb negb]. rewrite Hjoin, set_flags_all, land_ff_mod.
  cbn [bind]. fields. do 2 f_equal.
  unfold set_a, set_cc. fields. unfold u8, byte in *.
  rewrite Z.mod_mod, Z.mod_small by lia.
  destruct st; reflexivity.
Qed.

Lemma daa_42_keeps_42 :
  emulate_op daa_42
  = Next (set_pc 1 (set_cc (all_flags (cc daa_42) 0x42) daa_42)).
Proof.
  apply (daa_keeps_valid_bcd daa_42);
    first [reflexivity | vm_compute; discriminate].
Defined.

(** ** The regular part of the opcode table *)

Lemma code_index (n : Z) :
  0 <= n <= 7 ->
  n = 0 \/ n = 1 \/ n = 2 \/ n = 3 \/ n = 4 \/ n = 5 \/ n = 6 \/ n = 7.
Proof. lia. Qed.

Ltac split_code H :=
  apply code_index in H;
  destruct H as [-> | [-> | [-> | [-> | [-> | [-> | [-> | ->]]]]]]].

(** The 63 MOV cases follow the encoding 0x40 + 8 dst + src: the operand
    named by src (a register, or the byte addressed by HL for code 6) is
    read and assigned to the operand named by dst, and PC moves to the next
    byte; 0x76 (dst = src = 6) is excluded. *)
Theorem mov_follows_the_encoding (st : State8080) (dst src : Z) :
  0 <= dst <= 7 ->
  0 <= src <= 7 ->
  (dst =? 6) && (src =? 6) = false ->
  load st (pc st) = Next (0x40 + 8 * dst + src) ->
  emulate_op st
  = (v <- deref st (operand src st) ;;
     st1 <- assign (operand dst st) v st ;;
     Next (set_pc (pc st1 + 1) st1)).
Proof.
  intros Hdst Hsrc Hnot Hop.
  split_code Hdst; split_code Hsrc; try discriminate Hnot; step_at Hop;
    unfold read_hl, set_hl, read_hl_addr, read_addr, operand;
    cbn [deref bind assign]; fold (hl_addr st);
    try reflexivity;
    match goal with
    | |- context [load st (hl_addr st)] =>
        destruct (load st (hl_addr st)); reflexivity
    | |- context [store (hl_addr st) ?v st] =>
        destruct (store (hl_addr st) v st); reflexivity
    end.
Qed.

Lemma mov_b_m_loads_99 :
  emulate_op mov_b_m = Next (set_pc 1 (set_b 0x99 mov_b_m)).
Proof.
  apply (mov_follows_the_encoding mov_b_m 0 6); first [lia | reflexivity].
Defined.

Lemma alu_index (f : Z) :
  0 <= f <= 6 ->
  f = 0 \/ f = 1 \/ f = 2 \/ f = 3 \/ f = 4 \/ f = 5 \/ f = 6.
Proof. lia. Qed.

Lemma alu_only_a_and_cc (f : Z) (st : State8080) (v : Z) :
  alu f st v = set_a (a (alu f st v)) (set_cc (cc (alu f st v)) st).
Proof.
  assert (Hform : forall w answer (s0 : State8080),
            set_a w (set_flags s0 answer SET_ALL_FLAGS)
            = set_a (a (set_a w (set_flags s0 answer SET_ALL_FLAGS)))
                (set_cc (cc (set_a w (set_flags s0 answer SET_ALL_FLAGS))) s0)).
  { intros w answer s0. rewrite set_flags_all. unfold set_a, set_cc. fields.
    unfold u8. now rewrite Z.mod_mod by lia. }
  unfold alu.
  destruct f as [| [[[q | q |] | [q | q |] |] | [[q | q |] | [q | q |] |] |] |];
    first [apply Hform | unfold adc_x, sbb_x; apply Hform].
Qed.

(** The cases 0x80..0xb7 follow the encoding 0x80 + 8 f + r: operation f
    (ADD, ADC, SUB, SBB, ANA, XRA, ORA) is applied once to the operand
    named by r; 0x8e (ADC M) is excluded. *)
Theorem alu_block_follows_the_encoding (st : State8080) (f r : Z) :
  wf_state st = true ->
  0 <= f <= 6 ->
  0 <= r <= 7 ->
  (f =? 1) && (r =? 6) = false ->
  load st (pc st) = Next (0x80 + 8 * f + r) ->
  emulate_op st
  = (v <- deref st (operand r st) ;;
     Next (set_pc (pc st + 1) (alu f st v))).
Proof.
  intros Hwf Hf Hr Hnot Hop.
  destruct (wf_state_registers st Hwf) as (_ & Hb & _).
  assert (Hpc : forall g v, pc (alu g st v) = pc st)
    by (intros g v; rewrite alu_only_a_and_cc; reflexivity).
  apply alu_index in Hf.
  destruct Hf as [-> | [-> | [-> | [-> | [-> | [-> | ->]]]]]];
    split_code Hr; try discriminate Hnot; step_at Hop;
    unfold read_hl, read_hl_addr, read_addr, operand;
    cbn [deref bind]; fold (hl_addr st); cbv zeta;
    rewrite ?(u8_byte (b st)) by exact Hb;
    match goal with
    | |- context [load st (hl_addr st)] =>
        destruct (load st (hl_addr st)) as [m | |]; cbn [bind];
        [| reflexivity | reflexivity]
    | _ => idtac
    end;
    match goal with
    | |- Next (set_pc (pc (?g st ?v) + 1) _) = _ =>
        let Hsame := fresh "Hsame" in
        assert (Hsame : pc (g st v) = pc st)
          by first [ exact (Hpc 0 v) | exact (Hpc 1 v) | exact (Hpc 2 v)
                   | exact (Hpc 3 v) | exact (Hpc 4 v) | exact (Hpc 5 v)
                   | exact (Hpc 6 v) ];
        rewrite Hsame
    end; reflexivity.
Qed.

Lemma sub_m_5_7_borrows :
  emulate_op sub_m_5_7 = Next (set_pc 1 (sub_x sub_m_5_7 7)).
Proof.
  apply (alu_block_follows_the_encoding sub_m_5_7 2 6);
    first [lia | reflexivity].
Defined.

(** ACI, SUI, ANI and ORI do what [adc_x], [sub_x], [ana_x] and [ora_x]
    do with the byte after the opcode, and move PC two bytes on. *)
Theorem immediate_forms_follow_the_helpers (st : State8080) (imm : Z) :
  wf_state st = true ->
  is_byte imm = true ->
  load st (pc st + 1) = Next imm ->
  (load st (pc st) = Next 0xce ->
   emulate_op st = Next (set_pc (pc st + 2) (adc_x st imm))) /\
  (load st (pc st) = Next 0xd6 ->
   emulate_op st = Next (set_pc (pc st + 2) (sub_x st imm))) /\
  (load st (pc st) = Next 0xe6 ->
   emulate_op st = Next (set_pc (pc st + 2) (ana_x st imm))) /\
  (load st (pc st) = Next 0xf6 ->
   emulate_op st = Next (set_pc (pc st + 2) (ora_x st imm))).
Proof.
  intros Hwf Himm Hload. apply is_byte_byte in Himm.
  assert (Hcy : u8 (cy (cc st)) = cy (cc st)).
  { unfold wf_state, wf_cc in Hwf. rewrite !andb_true_iff in Hwf.
    destruct Hwf as [[_ [[[[[_ _] _] Hcarry] _] _]] _].
    apply is_flag_flag in Hcarry. destruct Hcarry as [-> | ->]; reflexivity. }
  repeat split; intros Hop; step Hop; rewrite Hload; cbn [bind]; cbv zeta;
    rewrite ?(u8_byte imm) by exact Himm;
    unfold adc_x, sub_x, ana_x, ora_x; cbv zeta;
    rewrite ?Hcy, ?(u16_small imm) by (unfold byte in Himm; lia);
    rewrite !set_flags_all;
    replace (u16 (a st) + imm + cy (cc st))
      with (u16 (a st) + cy (cc st) + imm) by lia;
    unfold set_pc, set_a, set_cc; fields; rewrite u16_idem_add;
    replace (pc st + 1 + 1) with (pc st + 2) by lia; reflexivity.
Qed.

Lemma immediate_5_7_scenarios :
  emulate_op aci_5_7 = Next (set_pc 2 (adc_x aci_5_7 7)) /\
  emulate_op sui_5_7 = Next (set_pc 2 (sub_x sui_5_7 7)) /\
  emulate_op ani_5_7 = Next (set_pc 2 (ana_x ani_5_7 7)) /\
  emulate_op ori_5_7 = Next (set_pc 2 (ora_x ori_5_7 7)).
Proof.
  split; [| split; [| split]].
  - destruct (immediate_forms_follow_the_helpers aci_5_7 7 eq_refl eq_refl eq_refl)
      as (Haci & _).
    apply Haci. reflexivity.
  - destruct (immediate_forms_follow_the_helpers sui_5_7 7 eq_refl eq_refl eq_refl)
      as (_ & Hsui & _).
    apply Hsui. reflexivity.
  - destruct (immediate_forms_follow_the_helpers ani_5_7 7 eq_refl eq_refl eq_refl)
      as (_ & _ & Hani & _).
    apply Hani. reflexivity.
  - destruct (immediate_forms_follow_the_helpers ori_5_7 7 eq_refl eq_refl eq_refl)
      as (_ & _ & _ & Hori).
    apply Hori. reflexivity.
Defined.

(** ** Invariants of a step *)

Lemma is_byte_u8 (v : Z) : is_byte (u8 v) = true.
Proof. apply is_byte_true. unfold byte, u8. apply Z.mod_pos_bound. lia. Qed.

Lemma is_word_u16 (v : Z) : is_word (u16 v) = true.
Proof.
  unfold is_word, u16. pose proof (Z.mod_pos_bound v 65536).
  apply andb_true_iff. lia.
Qed.

Lemma is_flag_bit1 (v : Z) : is_flag (bit1 v) = true.
Proof.
  unfold is_flag, bit1. pose proof (Z.mod_pos_bound v 2).
  apply orb_true_iff. lia.
Qed.

Lemma forallb_is_byte_insert (mem : list Z) (n : nat) (v : Z) :
  forallb is_byte mem = true ->
  forallb is_byte (<[n := u8 v]> mem) = true.
Proof.
  revert n. induction mem as [| x mem IH]; intros n Hall; [exact Hall |].
  cbn [forallb] in Hall. apply andb_true_iff in Hall as [Hx Hmem].
  destruct n as [| n]; cbn [forallb]; apply andb_true_iff; split;
    auto using is_byte_u8.
Qed.

Lemma store_cases (addr v : Z) (st : State8080) :
  store addr v st = Next (set_memory (<[Z.to_nat addr := u8 v]> (memory st)) st)
  \/ store addr v st = Undefined.
Proof.
  unfold store. destruct (addr <? 0); [now right |].
  destruct (addr <? Z.of_nat (length (memory st))); [now left | now right].
Qed.

Lemma wf_set_a v st : wf_state st = true -> wf_state (set_a v st) = true.
Proof.
  unfold wf_state, set_a. fields. rewrite is_byte_u8, !andb_true_iff. tauto.
Qed.
Lemma wf_set_b v st : wf_state st = true -> wf_state (set_b v st) = true.
Proof.
  unfold wf_state, set_b. fields. rewrite is_byte_u8, !andb_true_iff. tauto.
Qed.
Lemma wf_set_c v st : wf_state st = true -> wf_state (set_c v st) = true.
Proof.
  unfold wf_state, set_c. fields. rewrite is_byte_u8, !andb_true_iff. tauto.
Qed.
Lemma wf_set_d v st : wf_state st = true -> wf_state (set_d v st) = true.
Proof.
  unfold wf_state, set_d. fields. rewrite is_byte_u8, !andb_true_iff. tauto.
Qed.
Lemma wf_set_e v st : wf_state st = true -> wf_state (set_e v st) = true.
Proof.
  unfold wf_state, set_e. fields. rewrite is_byte_u8, !andb_true_iff. tauto.
Qed.
Lemma wf_set_h v st : wf_state st = true -> wf_state (set_h v st) = true.
Proof.
  unfold wf_state, set_h. fields. rewrite is_byte_u8, !andb_true_iff. tauto.
Qed.
Lemma wf_set_l v st : wf_state st = true -> wf_state (set_l v st) = true.
Proof.
  unfold wf_state, set_l. fields. rewrite is_byte_u8, !andb_true_iff. tauto.
Qed.
Lemma wf_set_sp v st : wf_state st = true -> wf_state (set_sp v st) = true.
Proof.
  unfold wf_state, set_sp. fields. rewrite is_word_u16, !andb_true_iff. tauto.
Qed.
Lemma wf_set_pc v st : wf_state st = true -> wf_state (set_pc v st) = true.
Proof.
  unfold wf_state, set_pc. fields. rewrite is_word_u16, !andb_true_iff. tauto.
Qed.
Lemma wf_set_cy v st : wf_state st = true -> wf_state (set_cy v st) = true.
Proof.
  unfold wf_state, wf_cc, set_cy. fields.
  rewrite is_flag_bit1, !andb_true_iff. tauto.
Qed.
Lemma wf_memory_bytes st :
  wf_state st = true -> forallb is_byte (memory st) = true.
Proof. unfold wf_state. rewrite !andb_true_iff. tauto. Qed.

Lemma wf_stored n v mem st :
  wf_state st = true ->
  forallb is_byte mem = true ->
  wf_state (set_memory (<[n := u8 v]> mem) st) = true.
Proof.
  unfold wf_state, set_memory. fields. rewrite !andb_true_iff.
  intros H Hmem. repeat split; try tauto. now apply forallb_is_byte_insert.
Qed.

Lemma is_flag_select (m k new old : Z) :
  is_flag new = true -> is_flag old = true -> is_flag (select m k new old) = true.
Proof. unfold select. now destruct (Z.testbit m k). Qed.

Lemma is_flag_of_bool (t : bool) : is_flag (of_bool t) = true.
Proof. now destruct t. Qed.

Lemma wf_set_flags st answer m :
  wf_state st = true -> wf_state (set_flags st answer m) = true.
Proof.
  rewrite set_flags_select. unfold wf_state, wf_cc, set_cc. fields.
  rewrite !andb_true_iff. intros H.
  assert (Hpar : is_flag (parity answer) = true).
  { destruct (parity_flag answer) as [-> | ->]; reflexivity. }
  repeat split; try tauto; apply is_flag_select;
    try apply is_flag_of_bool; try exact Hpar; tauto.
Qed.

Ltac wf_solve Hwf :=
  repeat match goal with
         | |- wf_state (set_pc _ _) = true => apply wf_set_pc
         | |- wf_state (set_a _ _) = true => apply wf_set_a
         | |- wf_state (set_b _ _) = true => apply wf_set_b
         | |- wf_state (set_c _ _) = true => apply wf_set_c
         | |- wf_state (set_d _ _) = true => apply wf_set_d
         | |- wf_state (set_e _ _) = true => apply wf_set_e
         | |- wf_state (set_h _ _) = true => apply wf_set_h
         | |- wf_state (set_l _ _) = true => apply wf_set_l
         | |- wf_state (set_sp _ _) = true => apply wf_set_sp
         | |- wf_state (set_cy _ _) = true => apply wf_set_cy
         | |- wf_state (set_memory (<[_ := u8 _]> _) _) = true =>
             apply wf_stored;
             [| repeat apply forallb_is_byte_insert;
                exact (wf_memory_bytes _ Hwf)]
         | |- wf_state (set_flags _ _ _) = true => apply wf_set_flags
         | |- wf_state (add_x _ _) = true => unfold add_x; cbv zeta
         | |- wf_state (adc_x _ _) = true => unfold adc_x; cbv zeta
         | |- wf_state (sub_x _ _) = true => unfold sub_x; cbv zeta
         | |- wf_state (sbb_x _ _) = true => unfold sbb_x; cbv zeta
         | |- wf_state (ana_x _ _) = true => unfold ana_x; cbv zeta
         | |- wf_state (xra_x _ _) = true => unfold xra_x; cbv zeta
         | |- wf_state (ora_x _ _) = true => unfold ora_x; cbv zeta
         end;
  exact Hwf.

(** Run the body of a [case] whose outcome is known to be [Next]. *)
Ltac run H :=
  unfold inr_x, dcr_x, inx_xy, dcx_xy, dad_xy, tworeg_add, read_hl, set_hl,
    read_hl_addr, read_addr, unimplemented_instr, unused_opcode in H;
  repeat first
    [ discriminate H
    | progress cbn [bind deref assign fst snd] in H
    | progress cbv zeta in H
    | match type of H with
      | context [load ?s0 ?addr] =>
          let v := fresh "v" in destruct (load s0 addr) as [v | ? ? |]
      | context [store ?addr ?w ?s0] =>
          let Hs := fresh "Hstore" in
          destruct (store_cases addr w s0) as [Hs | Hs]; rewrite Hs in H;
          clear Hs
      | context [if ?t then _ else _] => destruct t
      end ].

Lemma exec_preserves_wf (op base : Z) (st st' : State8080) :
  wf_state st = true -> exec op base st = Next st' -> wf_state st' = true.
Proof.
  intros Hwf Hrun.
  destruct op as [| q | q];
    [ injection Hrun as <-; exact Hwf | | injection Hrun as <-; exact Hwf ].
  do 9 (try destruct q as [q | q |]);
    cbv beta iota delta [exec] in Hrun; run Hrun;
    injection Hrun as <-; wf_solve Hwf.
Qed.

Lemma emulate_op_Next (st st' : State8080) :
  emulate_op st = Next st' ->
  exists op s1,
    load st (pc st) = Next op /\
    exec op (pc st) st = Next s1 /\
    st' = set_pc (pc s1 + 1) s1.
Proof.
  unfold emulate_op. cbv zeta. intros Hrun.
  destruct (load st (pc st)) as [op | |] eqn:Hop; try discriminate Hrun.
  cbn [bind] in Hrun.
  destruct (exec op (pc st) st) as [s1 | |] eqn:Hexec; try discriminate Hrun.
  cbn [bind] in Hrun. injection Hrun as <-.
  exists op, s1. repeat split. exact Hexec.
Qed.

Ltac frame_solve :=
  unfold add_x, adc_x, sub_x, sbb_x, ana_x, xra_x, ora_x; cbv zeta;
  rewrite ?set_flags_select; fields; rewrite ?length_insert;
  cbv beta iota delta [instr_length];
  first [ reflexivity
        | rewrite ?u16_idem_add; f_equal; lia ].

Ltac frame_unless Hnot :=
  intros Hnot; vm_compute in Hnot;
  first [ discriminate Hnot | frame_solve ].

(** What the body of a [case] leaves alone, by class of opcode. *)
Lemma exec_frame (op base : Z) (st st' : State8080) :
  exec op base st = Next st' ->
  length (memory st') = length (memory st) /\
  int_enable st' = int_enable st /\
  (mem_op op store_opcodes = false -> memory st' = memory st) /\
  (mem_op op sp_opcodes = false -> sp st' = sp st) /\
  (mem_op op flag_opcodes = false -> cc st' = cc st) /\
  (mem_op op jump_opcodes = false ->
   u16 (pc st' + 1) = u16 (pc st + instr_length op)).
Proof.
  intros Hrun.
  destruct op as [| q | q]; [| do 9 (try destruct q as [q | q |]) |];
    cbv beta iota delta [exec] in Hrun; run Hrun;
    injection Hrun as <-;
    (split; [frame_solve |]); (split; [frame_solve |]);
    (split; [frame_unless Hnot |]); (split; [frame_unless Hnot |]);
    (split; [frame_unless Hnot | frame_unless Hnot]).
Qed.

(** A step that returns leaves a well-formed state well-formed: every
    register stays a byte, every flag a bit, SP and PC 16-bit values and
    every memory cell a byte. *)
Theorem step_preserves_wf (st st' : State8080) :
  wf_state st = true ->
  emulate_op st = Next st' ->
  wf_state st' = true.
Proof.
  intros Hwf Hrun.
  destruct (emulate_op_Next st st' Hrun) as (op & s1 & _ & Hexec & ->).
  apply wf_set_pc. exact (exec_preserves_wf op (pc st) st s1 Hwf Hexec).
Qed.

Lemma inr_m_ff_stays_wf :
  exists st', emulate_op inr_m_ff = Next st' /\ wf_state st' = true.
Proof.
  eexists. split; [reflexivity |].
  apply (step_preserves_wf inr_m_ff); reflexivity.
Defined.

(** No step changes the size of memory or the interrupt-enable byte. *)
Theorem step_keeps_memory_size_and_int_enable (st st' : State8080) :
  emulate_op st = Next st' ->
  length (memory st') = length (memory st) /\
  int_enable st' = int_enable st.
Proof.
  intros Hrun.
  destruct (emulate_op_Next st st' Hrun) as (op & s1 & _ & Hexec & ->).
  destruct (exec_frame op (pc st) st s1 Hexec) as (Hlen & Hint & _).
  split; assumption.
Qed.

Lemma inr_m_ff_keeps_memory_size :
  exists st',
    emulate_op inr_m_ff = Next st' /\
    length (memory st') = length (memory inr_m_ff) /\
    int_enable st' = int_enable inr_m_ff.
Proof.
  eexists. split; [reflexivity |].
  apply (step_keeps_memory_size_and_int_enable inr_m_ff). reflexivity.
Defined.

(** Memory is written only by the store opcodes: after any other opcode
    the whole memory is as before. *)
Theorem only_store_opcodes_write_memory (st st' : State8080) (op : Z) :
  load st (pc st) = Next op ->
  mem_op op store_opcodes = false ->
  emulate_op st = Next st' ->
  memory st' = memory st.
Proof.
  intros Hop Hnot Hrun.
  destruct (emulate_op_Next st st' Hrun) as (op' & s1 & Hop' & Hexec & ->).
  rewrite Hop in Hop'. injection Hop' as <-.
  destruct (exec_frame op (pc st) st s1 Hexec) as (_ & _ & Hmem & _).
  exact (Hmem Hnot).
Qed.

Lemma adc_m_leaves_memory :
  exists st', emulate_op adc_m_1_1 = Next st' /\ memory st' = memory adc_m_1_1.
Proof.
  eexists. split; [reflexivity |].
  apply (only_store_opcodes_write_memory adc_m_1_1 _ 0x8e); reflexivity.
Defined.

(** SP is assigned only by LXI SP, INX SP and DCX SP. *)
Theorem only_sp_opcodes_change_sp (st st' : State8080) (op : Z) :
  load st (pc st) = Next op ->
  mem_op op sp_opcodes = false ->
  emulate_op st = Next st' ->
  sp st' = sp st.
Proof.
  intros Hop Hnot Hrun.
  destruct (emulate_op_Next st st' Hrun) as (op' & s1 & Hop' & Hexec & ->).
  rewrite Hop in Hop'. injection Hop' as <-.
  destruct (exec_frame op (pc st) st s1 Hexec) as (_ & _ & _ & Hsp & _).
  exact (Hsp Hnot).
Qed.

Lemma dad_sp_leaves_sp :
  exists st', emulate_op dad_sp_8000 = Next st' /\ sp st' = sp dad_sp_8000.
Proof.
  eexists. split; [reflexivity |].
  apply (only_sp_opcodes_change_sp dad_sp_8000 _ 0x39); reflexivity.
Defined.

(** The condition codes are assigned only by the flag opcodes: moves,
    loads, stores, INX, DCX, CMA, NOP and the jumps leave all five flags
    and the padding as they were. *)
Theorem only_flag_opcodes_change_flags (st st' : State8080) (op : Z) :
  load st (pc st) = Next op ->
  mem_op op flag_opcodes = false ->
  emulate_op st = Next st' ->
  cc st' = cc st.
Proof.
  intros Hop Hnot Hrun.
  destruct (emulate_op_Next st st' Hrun) as (op' & s1 & Hop' & Hexec & ->).
  rewrite Hop in Hop'. injection Hop' as <-.
  destruct (exec_frame op (pc st) st s1 Hexec) as (_ & _ & _ & _ & Hcc & _).
  exact (Hcc Hnot).
Qed.

Lemma lxi_sp_leaves_flags :
  exists st', emulate_op lxi_sp_1234 = Next st' /\ cc st' = cc lxi_sp_1234.
Proof.
  eexists. split; [reflexivity |].
  apply (only_flag_opcodes_change_flags lxi_sp_1234 _ 0x31); reflexivity.
Defined.

(** Every opcode other than JNZ and JMP, when its step returns, leaves PC
    at the old PC plus the encoded length of the instruction (1, 2 or 3),
    modulo 2^16. *)
Theorem pc_advances_by_instruction_length (st st' : State8080) (op : Z) :
  load st (pc st) = Next op ->
  mem_op op jump_opcodes = false ->
  emulate_op st = Next st' ->
  pc st' = u16 (pc st + instr_length op).
Proof.
  intros Hop Hnot Hrun.
  destruct (emulate_op_Next st st' Hrun) as (op' & s1 & Hop' & Hexec & ->).
  rewrite Hop in Hop'. injection Hop' as <-.
  destruct (exec_frame op (pc st) st s1 Hexec) as (_ & _ & _ & _ & _ & Hpc).
  exact (Hpc Hnot).
Qed.

Lemma lxi_sp_advances_by_three :
  exists st', emulate_op lxi_sp_1234 = Next st' /\ pc st' = 3.
Proof.
  eexists. split; [reflexivity |].
  apply (pc_advances_by_instruction_length lxi_sp_1234 _ 0x31); reflexivity.
Defined.
